(** * supercharge/console: input definition and argv binding

    A shallow embedding of [src/input/argv-input.ts] (class [ArgvInput]) and
    of the [InputDefinition] class it binds against, followed by the
    properties of registration and binding.

    JavaScript objects that are mutated in place ([InputDefinition]'s two
    sets, the bound-argument and bound-option maps of an input) are modelled
    by explicit state passing: a method is a function from the state of
    [this] to a completion (returned or thrown) and the state afterwards, so
    that what a failing call leaves behind can be stated. *)

From Stdlib Require Import ZArith String Ascii List.
From stdpp Require Import base option list strings gmap fin_maps.

Local Open Scope string_scope.
Local Open Scope Z_scope.

(** ** JavaScript values that reach the binder *)

(** An option value as the tokenizer delivers it ([unknown] in the source):
    a string, a boolean or an (integer) number. *)
Inductive value : Type :=
  | VString (s : string)
  | VBoolean (b : bool)
  | VNumber (z : Z).

(** A key handed to [Map.prototype.set]: the source computes it as
    [arg?.name()], a string or [undefined].  [None] is [undefined]. *)
Abbreviation Key := (option string) (only parsing).
Abbreviation undefined := (@None string) (only parsing).

(** The parameter type [string | number] of [hasArgument], [hasOption]:
    a name, or an integer used as a positional index. *)
Inductive NameOrIndex : Type :=
  | Name (s : string)
  | Index (i : Z).

(** [s === name] for a string [s]: strict equality never holds between a
    string and a number. *)
Definition strictEquals (s : string) (name : NameOrIndex) : bool :=
  match name with
  | Name s' => String.eqb s s'
  | Index _ => false
  end.

(** [!!x] for [x] an object or [undefined]: objects are truthy. *)
Definition truthy {A : Type} (x : option A) : bool :=
  match x with
  | Some _ => true
  | None => false
  end.

(** [array[i]] for a number [i]: [undefined] outside [0 .. length-1]. *)
Definition at_index {A : Type} (array : list A) (i : Z) : option A :=
  if i <? 0 then None else array !! Z.to_nat i.

(** ** Errors

    Every failure in the source is [throw new Error(message)].  One
    constructor per throw site, named after the error taxonomy of the
    specification; [message] is the text the source builds. *)
Inductive Error : Type :=
  | NoArgumentsExpectedError
  | TooManyArgumentsError (expected : list string)
  | UnexpectedOptionError (name : string)
  | DuplicateOptionError (name : string)
  | DuplicateShortcutError (shortcut owner : string)
  | DuplicateArgumentError (name : string).

Definition quote : string := String "034"%char EmptyString.

(** [names.join(', ')]. *)
Definition join (separator : string) (names : list string) : string :=
  String.concat separator names.

Definition message (e : Error) : string :=
  match e with
  | NoArgumentsExpectedError => "No arguments expected"
  | TooManyArgumentsError expected =>
      "Too many arguments: expected arguments " ++ quote ++ join ", " expected ++ quote
  | UnexpectedOptionError name =>
      "Unexpected option " ++ quote ++ name ++ quote
  | DuplicateOptionError name =>
      "Option " ++ quote ++ name ++ quote ++ " is already registered."
  | DuplicateShortcutError shortcut owner =>
      "Shortcut " ++ quote ++ shortcut ++ quote
        ++ " is already registered for option " ++ quote ++ owner ++ quote ++ "."
  | DuplicateArgumentError name =>
      "Option " ++ quote ++ name ++ quote ++ " is already registered."
  end.

(** ** Methods as state transformers that may throw *)

(** A method of an object whose state has type [St]: it either returns an [A]
    or throws, and in both cases leaves a state behind. *)
Definition Eff (St A : Type) : Type := St -> (Error + A) * St.

Definition ret {St A : Type} (a : A) : Eff St A := fun s => (inr a, s).

Definition throw {St A : Type} (e : Error) : Eff St A := fun s => (inl e, s).

Definition bind {St A B : Type} (m : Eff St A) (k : A -> Eff St B) : Eff St B :=
  fun s =>
    match m s with
    | (inr a, s') => k a s'
    | (inl e, s') => (inl e, s')
    end.

Definition gets {St A : Type} (f : St -> A) : Eff St A := fun s => (inr (f s), s).

Definition modify {St : Type} (f : St -> St) : Eff St unit := fun s => (inr tt, f s).

Declare Scope eff_scope.
Delimit Scope eff_scope with eff.
Notation "x <- m ;; k" := (bind m (fun x => k))
  (at level 100, m at next level, right associativity) : eff_scope.
Notation "m ;;; k" := (bind m (fun _ => k))
  (at level 100, right associativity) : eff_scope.
Local Open Scope eff_scope.

(** [array.forEach(callbackfn)]: the callback runs on every element in
    order; the first throw ends the loop. *)
Fixpoint forEach {St A : Type} (callbackfn : A -> Eff St unit) (array : list A)
  : Eff St unit :=
  match array with
  | [] => ret tt
  | x :: rest => callbackfn x ;;; forEach callbackfn rest
  end.

(** [array.forEach((element, index) => ...)], the index counted from
    [index]. *)
Fixpoint forEachFrom {St A : Type} (index : nat)
    (callbackfn : A -> nat -> Eff St unit) (array : list A) : Eff St unit :=
  match array with
  | [] => ret tt
  | x :: rest => callbackfn x index ;;; forEachFrom (S index) callbackfn rest
  end.

Definition forEachIndexed {St A : Type}
    (callbackfn : A -> nat -> Eff St unit) (array : list A) : Eff St unit :=
  forEachFrom 0%nat callbackfn array.

(** ** The libraries the classes are built on *)

(** [@supercharge/strings]. *)
Module Str.

(** [haystack.includes(needle)] of JavaScript strings. *)
Definition contains (haystack needle : string) : bool :=
  truthy (String.index 0 needle haystack).

(** [Str(value).includes(...needles)]: the needles, passed one by one or
    as an array, are flattened, and the answer is whether the string
    contains any of them. *)
Definition includes (value : string) (needles : list string) : bool :=
  existsb (contains value) needles.

End Str.

(** [@supercharge/set]: a set that keeps insertion order, here the list of
    its elements in that order. *)
Module SetOf.

Definition toArray {A : Type} (s : list A) : list A := s.

Definition isEmpty {A : Type} (s : list A) : bool :=
  match s with
  | [] => true
  | _ :: _ => false
  end.

(** [find(predicate)]: the first element satisfying it, or [undefined]. *)
Definition find {A : Type} (predicate : A -> bool) (s : list A) : option A :=
  List.find predicate s.

(** [includes(predicate)]: whether some element satisfies it. *)
Definition includes {A : Type} (predicate : A -> bool) (s : list A) : bool :=
  existsb predicate s.

(** [add(value)].  Both callers add an object only after checking that no
    member has its name, so the object is never a member already. *)
Definition add {A : Type} (x : A) (s : list A) : list A := s ++ [x].

End SetOf.

(** ** The value objects *)

(** Modelled from the spec: the class [InputArgument] ([./input-argument])
    is imported but not among the sources.  An argument has a name (its
    identity), an optional description, a required flag and an optional
    default value. *)
Module InputArgument.

Record t : Type := mk {
  name : string;
  description : option string;
  isRequired : bool;
  defaultValue : option value
}.

End InputArgument.

(** Modelled from the spec: the class [InputOption] ([./input-option]) is
    imported but not among the sources.  An option has a name, a collection
    of shortcuts, an optional description, an optional default value and a
    flag telling whether it expects a value. *)
Module InputOption.

Record t : Type := mk {
  name : string;
  shortcuts : list string;
  description : option string;
  defaultValue : option value;
  expectsValue : bool
}.

End InputOption.

(** ** [InputDefinition] *)

Module InputDefinition.

(** The field [meta]: the registered options and arguments, each in
    registration order. *)
Record t : Type := mk {
  options : list InputOption.t;
  arguments : list InputArgument.t
}.

(** [constructor ()]. *)
Definition new : t := {| options := []; arguments := [] |}.

(** [option (name)]. *)
Definition option_ (d : t) (name : NameOrIndex) : option InputOption.t :=
  SetOf.find (fun option => strictEquals (InputOption.name option) name)
    (options d).

(** [hasOption (name)]: by position when [Number.isInteger(name)], by name
    otherwise. *)
Definition hasOption (d : t) (name : NameOrIndex) : bool :=
  match name with
  | Index i => truthy (at_index (SetOf.toArray (options d)) i)
  | Name _ =>
      SetOf.includes
        (fun option => strictEquals (InputOption.name option) name)
        (options d)
  end.

(** [isMissingOption (name)]. *)
Definition isMissingOption (d : t) (name : NameOrIndex) : bool :=
  negb (hasOption d name).

(** The nested loops of [addOption]: every shortcut of the new option
    against every registered option. *)
Definition scanShortcuts (shortcuts : list string) : Eff t unit :=
  forEach
    (fun shortcut =>
       registeredOptions <- gets options ;;
       forEach
         (fun option' =>
            if Str.includes shortcut (InputOption.shortcuts option')
            then throw (DuplicateShortcutError shortcut (InputOption.name option'))
            else ret tt)
         registeredOptions)
    shortcuts.

(** [addOption (option)]. *)
Definition addOption (option : InputOption.t) : Eff t unit :=
  registered <- gets (fun d => hasOption d (Name (InputOption.name option))) ;;
  (if registered : bool
   then throw (DuplicateOptionError (InputOption.name option))
   else ret tt) ;;;
  scanShortcuts (InputOption.shortcuts option) ;;;
  modify (fun d =>
    {| options := SetOf.add option (options d); arguments := arguments d |}).

(** [argument (name)]: the lookup is by name only, whatever is passed. *)
Definition argument (d : t) (name : NameOrIndex) : option InputArgument.t :=
  SetOf.find (fun argument => strictEquals (InputArgument.name argument) name)
    (arguments d).

(** [hasArgument (name)]: by position when [Number.isInteger(name)], by name
    otherwise. *)
Definition hasArgument (d : t) (name : NameOrIndex) : bool :=
  match name with
  | Index i => truthy (at_index (SetOf.toArray (arguments d)) i)
  | Name _ =>
      SetOf.includes
        (fun argument => strictEquals (InputArgument.name argument) name)
        (arguments d)
  end.

(** [isMissingArgument (name)]. *)
Definition isMissingArgument (d : t) (name : NameOrIndex) : bool :=
  negb (hasArgument d name).

(** [addArgument (argument)]. *)
Definition addArgument (argument : InputArgument.t) : Eff t unit :=
  registered <- gets (fun d => hasArgument d (Name (InputArgument.name argument))) ;;
  (if registered : bool
   then throw (DuplicateArgumentError (InputArgument.name argument))
   else ret tt) ;;;
  modify (fun d =>
    {| options := options d; arguments := SetOf.add argument (arguments d) |}).

(** Modelled from the spec: [argumentNames()] is called by the binder but
    not defined in the class as given.  It "produces the ordered sequence
    of argument names, used for error messages". *)
Definition argumentNames (d : t) : list string :=
  map InputArgument.name (SetOf.toArray (arguments d)).

(** Whether [option] lists [shortcut] among its shortcuts. *)
Definition ownsShortcut (shortcut : string) (option : InputOption.t) : bool :=
  existsb (String.eqb shortcut) (InputOption.shortcuts option).

(** Modelled from the spec: [hasOptionShortcut(name)] is called by the
    binder but not defined in the class as given.  It tells whether "the
    key matches a registered shortcut". *)
Definition hasOptionShortcut (d : t) (name : string) : bool :=
  SetOf.includes (ownsShortcut name) (options d).

(** Modelled from the spec: [optionByShortcut(name)] is called by the
    binder but not defined in the class as given.  It resolves a shortcut
    "to the owning option". *)
Definition optionByShortcut (d : t) (name : string) : option InputOption.t :=
  SetOf.find (ownsShortcut name) (options d).

End InputDefinition.

(** ** [Input], the base class of [ArgvInput] *)

(** Modelled from the spec: the class [Input] ([./input]) is imported but not
    among the sources.  It holds the definition and the two outputs of
    binding, "a mapping from argument/option name to its assigned raw
    value"; [setOption] "assign[s] the value under that name". *)
Module Input.

Record t : Type := mk {
  definition : InputDefinition.t;
  arguments : gmap (option string) string;
  options : gmap (option string) value
}.

(** [new Input()] on a command's definition: nothing bound yet. *)
Definition new (d : InputDefinition.t) : t :=
  {| definition := d; arguments := ∅; options := ∅ |}.

(** [this.arguments().set(key, value)]. *)
Definition setArgument (key : Key) (v : string) (i : t) : t :=
  {| definition := definition i;
     arguments := <[key := v]> (arguments i);
     options := options i |}.

(** [this.options().set(key, value)]. *)
Definition setOptionEntry (key : Key) (v : value) (i : t) : t :=
  {| definition := definition i;
     arguments := arguments i;
     options := <[key := v]> (options i) |}.

(** [this.setOption(name, value)]. *)
Definition setOption (name : Key) (v : value) : Eff t unit :=
  modify (setOptionEntry name v).

End Input.

(** ** [ArgvInput] *)

Module ArgvInput.

(** [ParsedArgs] of the tokenizer: the positional tokens (the field [_])
    and every other entry of the object, in the order [Object.entries]
    lists them. *)
Record ParsedArgs : Type := mkParsed {
  positional : list string;
  named : list (string * value)
}.

(** The fields [args] and [parsed], on top of the [Input] part. *)
Record t : Type := mk {
  input : Input.t;
  args : list string;
  parsed : ParsedArgs
}.

(** [constructor (args)], for a command with the definition [d]: [parsed]
    starts as [{ _: [] }]. *)
Definition new (d : InputDefinition.t) (args : list string) : t :=
  {| input := Input.new d;
     args := args;
     parsed := {| positional := []; named := [] |} |}.

Definition definition (this : t) : InputDefinition.t :=
  Input.definition (input this).

Definition arguments (this : t) : gmap (option string) string :=
  Input.arguments (input this).

Definition options (this : t) : gmap (option string) value :=
  Input.options (input this).

(** A method of [Input] run on the [Input] part of an [ArgvInput]. *)
Definition super {A : Type} (m : Eff Input.t A) : Eff t A :=
  fun this =>
    let '(r, i) := m (input this) in
    (r, {| input := i; args := args this; parsed := parsed this |}).

(** The arrow function [assignArgumentsFrom] hands to [args.forEach]. *)
Definition assignArgument (argument : string) (index : nat) : Eff t unit :=
  d <- gets definition ;;
  if InputDefinition.hasArgument d (Index (Z.of_nat index))
  then
    let arg := InputDefinition.argument d (Index (Z.of_nat index)) in
    super (modify (Input.setArgument (InputArgument.name <$> arg) argument))
  else if SetOf.isEmpty (InputDefinition.arguments d)
  then throw NoArgumentsExpectedError
  else throw (TooManyArgumentsError (InputDefinition.argumentNames d)).

(** [assignArgumentsFrom (args)]. *)
Definition assignArgumentsFrom (args : list string) : Eff t unit :=
  forEachIndexed assignArgument args.

(** The arrow function [assignOptionsFrom] hands to
    [Object.entries(options).forEach]. *)
Definition assignOption (entry : string * value) : Eff t unit :=
  let '(name, v) := entry in
  d <- gets definition ;;
  if InputDefinition.hasOptionShortcut d name
  then
    let option := InputDefinition.optionByShortcut d name in
    super (Input.setOption (InputOption.name <$> option) v)
  else if InputDefinition.hasOption d (Name name)
  then super (modify (Input.setOptionEntry (Some name) v))
  else throw (UnexpectedOptionError name).

(** [assignOptionsFrom (options)]. *)
Definition assignOptionsFrom (options : list (string * value)) : Eff t unit :=
  forEach assignOption options.

(** [args.slice(1)]. *)
Definition slice1 {A : Type} (array : list A) : list A := drop 1 array.

(** [assignParsedInput ()]. *)
Definition assignParsedInput : Eff t unit :=
  p <- gets parsed ;;
  assignArgumentsFrom (slice1 (positional p)) ;;;
  assignOptionsFrom (named p).

(** [parse ()], the tokenizer [minimist] being given. *)
Definition parse (minimist : list string -> ParsedArgs) : Eff t unit :=
  modify (fun this =>
    {| input := input this; args := args this; parsed := minimist (args this) |}) ;;;
  assignParsedInput.

(** [firstArgument ()]: [this.parsed._[0] ?? '']. *)
Definition firstArgument (this : t) : string :=
  match positional (parsed this) !! 0%nat with
  | Some first => first
  | None => EmptyString
  end.

End ArgvInput.

(** ** Vocabulary of the statements *)

(** The input [this] after [this.arguments().set(key, v)]. *)
Definition withArgument (key : Key) (v : string) (this : ArgvInput.t) : ArgvInput.t :=
  {| ArgvInput.input := Input.setArgument key v (ArgvInput.input this);
     ArgvInput.args := ArgvInput.args this;
     ArgvInput.parsed := ArgvInput.parsed this |}.

(** The input [this] after [this.options().set(key, v)]. *)
Definition withOption (key : Key) (v : value) (this : ArgvInput.t) : ArgvInput.t :=
  {| ArgvInput.input := Input.setOptionEntry key v (ArgvInput.input this);
     ArgvInput.args := ArgvInput.args this;
     ArgvInput.parsed := ArgvInput.parsed this |}.

(** The key of an option token resolves: it is a registered shortcut or a
    registered name. *)
Definition recognised (d : InputDefinition.t) (key : string) : bool :=
  InputDefinition.hasOptionShortcut d key || InputDefinition.hasOption d (Name key).

(** The registry invariant "no two options share any shortcut". *)
Definition UniqueShortcuts (d : InputDefinition.t) : Prop :=
  forall o1 o2 s,
    o1 ∈ InputDefinition.options d -> o2 ∈ InputDefinition.options d ->
    s ∈ InputOption.shortcuts o1 -> s ∈ InputOption.shortcuts o2 ->
    o1 = o2.

(** An argument and an option with nothing but a name (and shortcuts). *)
Definition plainArgument (name : string) : InputArgument.t :=
  InputArgument.mk name None false None.

Definition plainOption (name : string) (shortcuts : list string) : InputOption.t :=
  InputOption.mk name shortcuts None None false.

(** The scenario of the specification: an argument [file] and an option
    [verbose] with the shortcut [v]. *)
Definition fileDefinition : InputDefinition.t :=
  {| InputDefinition.options := [plainOption "verbose" ["v"]];
     InputDefinition.arguments := [plainArgument "file"] |}.

(** A definition with two arguments and no option. *)
Definition copyDefinition : InputDefinition.t :=
  {| InputDefinition.options := [];
     InputDefinition.arguments := [plainArgument "source"; plainArgument "target"] |}.

(** The sentence "adding an option whose shortcut set intersects that of a
    registered option always fails with the duplicate-shortcut error and the
    option is not added", as it is written. *)
Definition shared_shortcut_always_shortcut_error : Prop :=
  forall (d : InputDefinition.t) (existing o : InputOption.t) (s : string),
    existing ∈ InputDefinition.options d ->
    s ∈ InputOption.shortcuts o ->
    s ∈ InputOption.shortcuts existing ->
    exists s' owner,
      InputDefinition.addOption o d = (inl (DuplicateShortcutError s' owner), d).

(** The sentence "a token keyed by a shortcut of a registered option
    produces the same bound options as the same token keyed by the option's
    full name", as it is written, for definitions that satisfy the registry
    invariant. *)
Definition shortcut_token_binds_like_name_token : Prop :=
  forall (this : ArgvInput.t) (o : InputOption.t) (s : string) (v : value),
    UniqueShortcuts (ArgvInput.definition this) ->
    o ∈ InputDefinition.options (ArgvInput.definition this) ->
    s ∈ InputOption.shortcuts o ->
    ArgvInput.assignOptionsFrom [(s, v)] this
    = ArgvInput.assignOptionsFrom [(InputOption.name o, v)] this.

(** An option named [v] (shortcut [V]) next to an option [verbose] whose
    shortcut is [v]: the name of the first is a shortcut of the second. *)
Definition versionDefinition : InputDefinition.t :=
  {| InputDefinition.options := [plainOption "v" ["V"]; plainOption "verbose" ["v"]];
     InputDefinition.arguments := [] |}.

(** Two runs of a method are related by [R] when, started in states related
    by [R], they complete alike (both return the same value or both throw
    the same error) and leave states related by [R]. *)
Definition Related {St A : Type} (R : St -> St -> Prop) (m : Eff St A) : Prop :=
  forall s1 s2,
    R s1 s2 -> fst (m s1) = fst (m s2) /\ R (snd (m s1)) (snd (m s2)).

(** Two inputs carry the same definition and the same parsed tokens; their
    bound arguments agree if [P] holds and their bound options agree if [Q]
    holds. *)
Definition sameInputs (P Q : Prop) (this1 this2 : ArgvInput.t) : Prop :=
  ArgvInput.definition this1 = ArgvInput.definition this2
  /\ ArgvInput.parsed this1 = ArgvInput.parsed this2
  /\ (P -> ArgvInput.arguments this1 = ArgvInput.arguments this2)
  /\ (Q -> ArgvInput.options this1 = ArgvInput.options this2).

(** The tokens of [mycli run a.txt -v]. *)
Definition runFile : ArgvInput.ParsedArgs :=
  {| ArgvInput.positional := ["run"; "a.txt"];
     ArgvInput.named := [("v", VBoolean true)] |}.

(** An input on which nothing was bound yet, and one that already holds a
    bound argument, both with the tokens [runFile]. *)
Definition freshInput : ArgvInput.t :=
  ArgvInput.mk (Input.new fileDefinition) ["run"; "a.txt"; "-v"] runFile.

Definition reusedInput : ArgvInput.t :=
  ArgvInput.mk (Input.mk fileDefinition {[ Some "file" := "old.txt" ]} ∅)
    ["run"; "a.txt"; "-v"] runFile.

(** ** Binding in closed form *)

(** A bound map after the entries were written into it, one after the
    other, with [Map.prototype.set]. *)
Definition writeAll {V : Type} (m : gmap (option string) V)
    (entries : list (option string * V)) : gmap (option string) V :=
  foldl (fun m' entry => <[entry.1 := entry.2]> m') m entries.

(** The input [this] with other bound maps. *)
Definition withMaps (arguments : gmap (option string) string)
    (options : gmap (option string) value) (this : ArgvInput.t) : ArgvInput.t :=
  {| ArgvInput.input :=
       {| Input.definition := ArgvInput.definition this;
          Input.arguments := arguments;
          Input.options := options |};
     ArgvInput.args := ArgvInput.args this;
     ArgvInput.parsed := ArgvInput.parsed this |}.

(** What the positional loop, started at [index], writes: the tokens that
    fall on declared positions, each under the key the binder computes. *)
Definition storedArguments (d : InputDefinition.t) (index : nat) (args : list string)
  : list (option string * string) :=
  map (pair undefined) (take (length (InputDefinition.arguments d) - index) args).

(** How the positional loop, started at [index], completes. *)
Definition positionalOutcome (d : InputDefinition.t) (index : nat) (args : list string)
  : Error + unit :=
  if (length args <=? length (InputDefinition.arguments d) - index)%nat
  then inr tt
  else if SetOf.isEmpty (InputDefinition.arguments d)
  then inl NoArgumentsExpectedError
  else inl (TooManyArgumentsError (InputDefinition.argumentNames d)).

(** The key under which the binder stores the value of an option token, if
    the token's key resolves. *)
Definition resolve (d : InputDefinition.t) (key : string) : option (option string) :=
  if InputDefinition.hasOptionShortcut d key
  then Some (InputOption.name <$> InputDefinition.optionByShortcut d key)
  else if InputDefinition.hasOption d (Name key)
  then Some (Some key)
  else None.

(** What the option loop writes: the entries up to the first key that does
    not resolve, each under its resolved key. *)
Fixpoint storedOptions (d : InputDefinition.t) (entries : list (string * value))
  : list (option string * value) :=
  match entries with
  | [] => []
  | (key, v) :: rest =>
      match resolve d key with
      | Some target => (target, v) :: storedOptions d rest
      | None => []
      end
  end.

(** How the option loop completes. *)
Fixpoint optionsOutcome (d : InputDefinition.t) (entries : list (string * value))
  : Error + unit :=
  match entries with
  | [] => inr tt
  | (key, v) :: rest =>
      match resolve d key with
      | Some _ => optionsOutcome d rest
      | None => inl (UnexpectedOptionError key)
      end
  end.

(** ** [Command] ([src/command.ts]) *)

Module Command.

(** What a method of [Command] throws: its own errors, and the errors of the
    definition, which it lets through. *)
Inductive Error' : Type :=
  | MissingApplicationInstance
  | MissingArgumentName (command : string)
  | MissingOptionName (command : string)
  | HandleNotImplemented (name : string)
  | FromDefinition (e : Error).

Definition message' (e : Error') : string :=
  match e with
  | MissingApplicationInstance => "Missing application instance."
  | MissingArgumentName command => "Missing argument name in command " ++ command
  | MissingOptionName command => "Missing option name in command " ++ command
  | HandleNotImplemented name =>
      "You must implement the " ++ quote ++ "handle" ++ quote ++ " method in your "
        ++ quote ++ name ++ quote ++ " command"
  | FromDefinition e => message e
  end.

Section Collaborators.

(** The class [Application] ([./application]) is imported but not among the
    sources; a command only stores and returns the instance. *)
Variable Application : Type.

(** [new InputArgument(name)] and [new InputOption(name)], constructors of
    classes that are not among the sources. *)
Variable newInputArgument : string -> InputArgument.t.
Variable newInputOption : string -> InputOption.t.

(** [interface CommandMeta], without [output]: a [ConsoleOutput] has no
    field. *)
Record CommandMeta : Type := mkMeta {
  meta_name : string;
  meta_description : option string;
  meta_application : option Application;
  meta_definition : InputDefinition.t
}.

(** A command: its class name ([this.constructor.name]) and [meta]. *)
Record t : Type := mk {
  constructorName : string;
  meta : CommandMeta
}.

(** [configure ()]: empty in the base class. *)
Definition configure (this : t) : t := this.

(** [constructor (name)] of a class called [constructorName]. *)
Definition new (constructorName : string) (name : option string) : t :=
  configure
    {| constructorName := constructorName;
       meta :=
         {| meta_name := match name with Some n => n | None => constructorName end;
            meta_description := None;
            meta_application := None;
            meta_definition := InputDefinition.new |} |}.

(** [getName ()]. *)
Definition getName (this : t) : string := meta_name (meta this).

(** [name (name)]. *)
Definition name (name : string) (this : t) : t :=
  {| constructorName := constructorName this;
     meta :=
       {| meta_name := name;
          meta_description := meta_description (meta this);
          meta_application := meta_application (meta this);
          meta_definition := meta_definition (meta this) |} |}.

(** [getDescription ()]: [this.meta.description ?? '']. *)
Definition getDescription (this : t) : string :=
  match meta_description (meta this) with
  | Some description => description
  | None => EmptyString
  end.

(** [description (description)]. *)
Definition description (description : string) (this : t) : t :=
  {| constructorName := constructorName this;
     meta :=
       {| meta_name := meta_name (meta this);
          meta_description := Some description;
          meta_application := meta_application (meta this);
          meta_definition := meta_definition (meta this) |} |}.

(** [setApplication (application)]. *)
Definition setApplication (application : Application) (this : t) : t :=
  {| constructorName := constructorName this;
     meta :=
       {| meta_name := meta_name (meta this);
          meta_description := meta_description (meta this);
          meta_application := Some application;
          meta_definition := meta_definition (meta this) |} |}.

(** [application ()]. *)
Definition application (this : t) : Error' + Application :=
  match meta_application (meta this) with
  | None => inl MissingApplicationInstance
  | Some application => inr application
  end.

(** [definition ()]. *)
Definition definition (this : t) : InputDefinition.t := meta_definition (meta this).

(** [isEnabled ()]. *)
Definition isEnabled (this : t) : bool := true.

(** The command after a method of its definition ran on the definition. *)
Definition withDefinition (d : InputDefinition.t) (this : t) : t :=
  {| constructorName := constructorName this;
     meta :=
       {| meta_name := meta_name (meta this);
          meta_description := meta_description (meta this);
          meta_application := meta_application (meta this);
          meta_definition := d |} |}.

(** [!name] for a string: only the empty string is falsy. *)
Definition falsy (name : string) : bool :=
  match name with
  | EmptyString => true
  | String _ _ => false
  end.

(** [addArgument (name)].  The builder it returns wraps the new argument;
    the argument stands for it. *)
Definition addArgument (name : string) (this : t) : (Error' + InputArgument.t) * t :=
  if falsy name
  then (inl (MissingArgumentName (constructorName this)), this)
  else
    let argument := newInputArgument name in
    match InputDefinition.addArgument argument (definition this) with
    | (inl e, d) => (inl (FromDefinition e), withDefinition d this)
    | (inr _, d) => (inr argument, withDefinition d this)
    end.

(** [addOption (name)].  The builder it returns wraps the new option; the
    option stands for it. *)
Definition addOption (name : string) (this : t) : (Error' + InputOption.t) * t :=
  if falsy name
  then (inl (MissingOptionName (constructorName this)), this)
  else
    let option := newInputOption name in
    match InputDefinition.addOption option (definition this) with
    | (inl e, d) => (inl (FromDefinition e), withDefinition d this)
    | (inr _, d) => (inr option, withDefinition d this)
    end.

(** [run ()] of the base class. *)
Definition run (this : t) : Error' + unit :=
  inl (HandleNotImplemented (getName this)).

End Collaborators.

End Command.

(** ** [ConsoleOutput] *)

Module ConsoleOutput.

(** A value a caller may hand to a logging method, whatever the declared
    parameter type: the methods test it with [typeof] and [instanceof]. *)
Inductive JsValue : Type :=
  | JsUndefined
  | JsNull
  | JsString (s : string)
  | JsNumber (z : Z)
  | JsBoolean (b : bool)
  | JsError (message : string) (stack : option string)
  | JsObject.

(** [typeof v]. *)
Definition typeof (v : JsValue) : string :=
  match v with
  | JsUndefined => "undefined"
  | JsNull => "object"
  | JsString _ => "string"
  | JsNumber _ => "number"
  | JsBoolean _ => "boolean"
  | JsError _ _ => "object"
  | JsObject => "object"
  end.

(** [isNullish(v)] of [@supercharge/goodies]. *)
Definition isNullish (v : JsValue) : bool :=
  match v with
  | JsUndefined | JsNull => true
  | _ => false
  end.

(** The modifiers of [kleur] the class uses. *)
Inductive Style : Type :=
  | green | bgGreen | black | blue | bgBlue | red | bgRed | white | bold
  | bgCyan | bgYellow | yellow | dim.

(** The console: what [console.log] and [console.error] were called with,
    oldest first. *)
Record Console : Type := mkConsole {
  logged : list string;
  loggedError : list string
}.

Definition newline : ascii := "010"%char.

(** [s.split('\n')], for any one-character separator. *)
Fixpoint split (separator : ascii) (s : string) : list string :=
  match s with
  | EmptyString => [EmptyString]
  | String c rest =>
      if Ascii.eqb c separator
      then EmptyString :: split separator rest
      else
        match split separator rest with
        | piece :: pieces => String c piece :: pieces
        | [] => [String c EmptyString]
        end
  end.

(** [array.splice(1)]: the elements from index 1 on (which it also removes
    from the array, a temporary here). *)
Definition splice1 {A : Type} (array : list A) : list A := drop 1 array.

Section Kleur.

(** [kleur]: [kleur [a; b] text] is [this.colors().a().b(text)]. *)
Variable kleur : list Style -> string -> string.

(** [log (message)]. *)
Definition log (message : string) (console : Console) : Console :=
  {| logged := (logged console ++ [message])%list; loggedError := loggedError console |}.

(** [logError (message)]. *)
Definition logError (message : string) (console : Console) : Console :=
  {| logged := logged console; loggedError := (loggedError console ++ [message])%list |}.

(** [emptyLine ()]. *)
Definition emptyLine (console : Console) : Console := log EmptyString console.

(** [success (label, message)]. *)
Definition success (label message : JsValue) (console : Console)
  : (string + unit) * Console :=
  match label with
  | JsString l =>
      if isNullish message
      then (inr tt, log (kleur [green] l) console)
      else
        match message with
        | JsString m => (inr tt, log (kleur [bgGreen; black] l ++ "  " ++ m) console)
        | _ =>
            (inl ("Unsupported input when logging a " ++ quote ++ "success" ++ quote
                    ++ " message."),
             console)
        end
  | _ =>
      (inl ("Unsupported input when logging a " ++ quote ++ "success" ++ quote
              ++ " message."),
       console)
  end.

(** [hint (label, message)]. *)
Definition hint (label message : JsValue) (console : Console)
  : (string + unit) * Console :=
  match label with
  | JsString l =>
      if isNullish message
      then (inr tt, log (kleur [blue] l) console)
      else
        match message with
        | JsString m => (inr tt, log (kleur [bgBlue; black] l ++ "  " ++ m) console)
        | _ =>
            (inl ("Unsupported input when logging a " ++ quote ++ "hint" ++ quote
                    ++ " message."),
             console)
        end
  | _ =>
      (inl ("Unsupported input when logging a " ++ quote ++ "hint" ++ quote
              ++ " message."),
       console)
  end.

(** [fail (label, message)]. *)
Definition fail (label message : JsValue) (console : Console)
  : (string + unit) * Console :=
  match label with
  | JsString l =>
      if isNullish message
      then (inr tt, logError (kleur [red] l) console)
      else
        match message with
        | JsString m =>
            (inr tt, logError (kleur [bgRed; white; bold] l ++ "  " ++ m) console)
        | _ =>
            (inl ("Unsupported input when logging a " ++ quote ++ "fail" ++ quote
                    ++ " message."),
             console)
        end
  | _ =>
      (inl ("Unsupported input when logging a " ++ quote ++ "fail" ++ quote
              ++ " message."),
       console)
  end.

(** [debug (message)]. *)
Definition debug (message : JsValue) (console : Console) : (string + unit) * Console :=
  match message with
  | JsString _ => hint (JsString " DEBUG ") message console
  | _ =>
      (inl ("Unsupported input when logging a debug message. Received: " ++ typeof message),
       console)
  end.

(** [info (message)]. *)
Definition info (message : JsValue) (console : Console) : (string + unit) * Console :=
  match message with
  | JsString m => (inr tt, log (kleur [bgCyan; black] " INFO " ++ "  " ++ m) console)
  | _ =>
      (inl ("Unsupported input when logging an info message. Received: " ++ typeof message),
       console)
  end.

(** [warn (message)]. *)
Definition warn (message : JsValue) (console : Console) : (string + unit) * Console :=
  match message with
  | JsString m =>
      (inr tt,
       log (kleur [bgYellow; black] " WARN " ++ "  " ++ kleur [yellow] m) console)
  | _ =>
      (inl ("Unsupported input when logging a warning message. Received: " ++ typeof message),
       console)
  end.

(** [formatStack (stack)]. *)
Definition formatStack (stack : option string) : string :=
  match stack with
  | None => EmptyString
  | Some EmptyString => EmptyString
  | Some stack =>
      join (String newline EmptyString)
        (map (fun line => kleur [dim] line) (splice1 (split newline stack)))
  end.

(** [error (error)]. *)
Definition error (error : JsValue) (console : Console) : (string + unit) * Console :=
  let prefix := kleur [bgRed; white] " ERROR " in
  match error with
  | JsString _ => fail (JsString prefix) error console
  | JsError message stack =>
      match fail (JsString prefix) (JsString message) console with
      | (inr _, console') => (inr tt, logError (formatStack stack) console')
      | (inl e, console') => (inl e, console')
      end
  | _ =>
      (inl ("Unsupported input when logging an error. Received: " ++ typeof error),
       console)
  end.

End Kleur.

End ConsoleOutput.

(** [Command.prettyPrint (error)] of [src/command.ts]:
    [this.io().emptyLine().error(error).emptyLine()]. *)
Definition prettyPrint (kleur : list ConsoleOutput.Style -> string -> string)
    (error : ConsoleOutput.JsValue) (console : ConsoleOutput.Console)
  : (string + unit) * ConsoleOutput.Console :=
  match ConsoleOutput.error kleur error (ConsoleOutput.emptyLine console) with
  | (inr _, console') => (inr tt, ConsoleOutput.emptyLine console')
  | (inl e, console') => (inl e, console')
  end.

(** A string without a line break. *)
Fixpoint singleLine (s : string) : bool :=
  match s with
  | EmptyString => true
  | String c rest => negb (Ascii.eqb c ConsoleOutput.newline) && singleLine rest
  end.

(** Whether a logging method accepts its pair of arguments: the label is a
    string and the message is a string or nullish. *)
Definition supported (label message : ConsoleOutput.JsValue) : bool :=
  match label, message with
  | ConsoleOutput.JsString _,
    (ConsoleOutput.JsUndefined | ConsoleOutput.JsNull | ConsoleOutput.JsString _) => true
  | _, _ => false
  end.

Definition isString (v : ConsoleOutput.JsValue) : bool :=
  match v with
  | ConsoleOutput.JsString _ => true
  | _ => false
  end.

(** * Properties *)

(** ** The effect combinators *)

Lemma bind_returned {St A B : Type} (m : Eff St A) (k : A -> Eff St B) s a s' :
  m s = (inr a, s') -> bind m k s = k a s'.
Proof. intros H. unfold bind. now rewrite H. Qed.

Lemma bind_thrown {St A B : Type} (m : Eff St A) (k : A -> Eff St B) s e s' :
  m s = (inl e, s') -> bind m k s = (inl e, s').
Proof. intros H. unfold bind. now rewrite H. Qed.

Lemma forEach_app {St A : Type} (f : A -> Eff St unit) (l1 l2 : list A) s :
  forEach f (l1 ++ l2) s =
  match forEach f l1 s with
  | (inr _, s') => forEach f l2 s'
  | (inl e, s') => (inl e, s')
  end.
Proof.
  revert s. induction l1 as [|x l1 IH]; intros s; simpl.
  - reflexivity.
  - unfold bind. destruct (f x s) as [[e|[]] s1]; [reflexivity|]. apply IH.
Qed.

(** ** Lookups in a definition *)

Section Lookups.

Implicit Types (d : InputDefinition.t) (i : nat) (name : string).

Lemma at_index_of_nat {A : Type} (l : list A) i :
  at_index l (Z.of_nat i) = l !! i.
Proof.
  unfold at_index. destruct (Z.ltb_spec (Z.of_nat i) 0) as [H|H]; [lia|].
  now rewrite Nat2Z.id.
Qed.

Lemma hasArgument_Index_lt d i :
  (i < length (InputDefinition.arguments d))%nat ->
  InputDefinition.hasArgument d (Index (Z.of_nat i)) = true.
Proof.
  intros H. simpl. unfold SetOf.toArray. rewrite at_index_of_nat.
  destruct (lookup_lt_is_Some_2 _ _ H) as [a ->]. reflexivity.
Qed.

Lemma hasArgument_Index_ge d i :
  (length (InputDefinition.arguments d) <= i)%nat ->
  InputDefinition.hasArgument d (Index (Z.of_nat i)) = false.
Proof.
  intros H. simpl. unfold SetOf.toArray. rewrite at_index_of_nat.
  now rewrite (lookup_ge_None_2 _ _ H).
Qed.

(** Handed an index, [argument] finds nothing: no name is a number. *)
Lemma argument_Index d (z : Z) : InputDefinition.argument d (Index z) = None.
Proof.
  unfold InputDefinition.argument, SetOf.find.
  induction (InputDefinition.arguments d) as [|a l IH]; simpl; auto.
Qed.

Lemma hasArgument_Name d name :
  InputDefinition.hasArgument d (Name name) = true <->
  exists a, a ∈ InputDefinition.arguments d /\ InputArgument.name a = name.
Proof.
  simpl. unfold SetOf.includes. rewrite existsb_exists. split.
  - intros (a & Hin & Heq). exists a. split; [now apply list_elem_of_In|].
    now apply String.eqb_eq.
  - intros (a & Hin & Heq). exists a. split; [now apply list_elem_of_In|].
    now apply String.eqb_eq.
Qed.

Lemma hasOption_Name d name :
  InputDefinition.hasOption d (Name name) = true <->
  exists o, o ∈ InputDefinition.options d /\ InputOption.name o = name.
Proof.
  simpl. unfold SetOf.includes. rewrite existsb_exists. split.
  - intros (o & Hin & Heq). exists o. split; [now apply list_elem_of_In|].
    now apply String.eqb_eq.
  - intros (o & Hin & Heq). exists o. split; [now apply list_elem_of_In|].
    now apply String.eqb_eq.
Qed.

Lemma ownsShortcut_true name (o : InputOption.t) :
  InputDefinition.ownsShortcut name o = true <-> name ∈ InputOption.shortcuts o.
Proof.
  unfold InputDefinition.ownsShortcut. rewrite existsb_exists. split.
  - intros (s & Hin & Heq). apply String.eqb_eq in Heq. subst s.
    now apply list_elem_of_In.
  - intros Hin. exists name. split; [now apply list_elem_of_In|].
    apply String.eqb_refl.
Qed.

End Lookups.

(** ** Binding positional tokens *)

Section Positional.

Implicit Types (this : ArgvInput.t) (args : list string) (index : nat).

Lemma assignArgument_within this argument index :
  (index < length (InputDefinition.arguments (ArgvInput.definition this)))%nat ->
  ArgvInput.assignArgument argument index this
  = (inr tt, withArgument undefined argument this).
Proof.
  intros H. unfold ArgvInput.assignArgument, bind, gets.
  rewrite (hasArgument_Index_lt _ _ H), argument_Index. reflexivity.
Qed.

Lemma assignArgument_none_declared this argument index :
  InputDefinition.arguments (ArgvInput.definition this) = [] ->
  ArgvInput.assignArgument argument index this
  = (inl NoArgumentsExpectedError, this).
Proof.
  intros H. unfold ArgvInput.assignArgument, bind, gets.
  rewrite hasArgument_Index_ge by (rewrite H; simpl; lia).
  rewrite H. reflexivity.
Qed.

Lemma assignArgument_beyond this argument index :
  (length (InputDefinition.arguments (ArgvInput.definition this)) <= index)%nat ->
  InputDefinition.arguments (ArgvInput.definition this) <> [] ->
  ArgvInput.assignArgument argument index this
  = (inl (TooManyArgumentsError
            (map InputArgument.name
               (InputDefinition.arguments (ArgvInput.definition this)))),
     this).
Proof.
  intros H Hne. unfold ArgvInput.assignArgument, bind, gets.
  rewrite (hasArgument_Index_ge _ _ H).
  destruct (InputDefinition.arguments (ArgvInput.definition this)) eqn:E;
    [congruence|].
  unfold InputDefinition.argumentNames, SetOf.toArray. rewrite E. reflexivity.
Qed.

Lemma definition_withArgument key v this :
  ArgvInput.definition (withArgument key v this) = ArgvInput.definition this.
Proof. reflexivity. Qed.

(** Tokens that all fall on declared positions: every one of them is
    stored, one after the other, under the key [undefined]. *)
Lemma forEachFrom_within args : forall index this,
  (index + length args <= length (InputDefinition.arguments (ArgvInput.definition this)))%nat ->
  forEachFrom index ArgvInput.assignArgument args this
  = (inr tt, foldl (fun this' argument => withArgument undefined argument this') this args).
Proof.
  induction args as [|a args IH]; intros index this H; simpl in *.
  - reflexivity.
  - erewrite bind_returned by (apply assignArgument_within; lia).
    apply IH. rewrite definition_withArgument. lia.
Qed.

Lemma definition_foldl_withArgument args : forall this,
  ArgvInput.definition
    (foldl (fun this' argument => withArgument undefined argument this') this args)
  = ArgvInput.definition this.
Proof. induction args as [|a args IH]; intros this; simpl; [reflexivity|]. now rewrite IH. Qed.

(** No token is ever stored under a name. *)
Lemma lookup_foldl_withArgument args name : forall this,
  ArgvInput.arguments
    (foldl (fun this' argument => withArgument undefined argument this') this args)
    !! Some name
  = ArgvInput.arguments this !! Some name.
Proof.
  induction args as [|a args IH]; intros this; simpl; [reflexivity|].
  rewrite IH. unfold ArgvInput.arguments. simpl.
  now rewrite lookup_insert_ne.
Qed.

(** More tokens than declared arguments: the loop stores the tokens that
    fit and the first one that does not throws. *)
Lemma forEachFrom_beyond args : forall index this,
  (index <= length (InputDefinition.arguments (ArgvInput.definition this)))%nat ->
  (length (InputDefinition.arguments (ArgvInput.definition this)) < index + length args)%nat ->
  fst (forEachFrom index ArgvInput.assignArgument args this)
  = inl (if SetOf.isEmpty (InputDefinition.arguments (ArgvInput.definition this))
         then NoArgumentsExpectedError
         else TooManyArgumentsError
                (map InputArgument.name
                   (InputDefinition.arguments (ArgvInput.definition this)))).
Proof.
  induction args as [|a args IH]; intros index this Hle Hlt; simpl in *; [lia|].
  destruct (decide (index = length (InputDefinition.arguments (ArgvInput.definition this))))
    as [->|Hne].
  - destruct (InputDefinition.arguments (ArgvInput.definition this)) eqn:E.
    + erewrite bind_thrown by (now apply assignArgument_none_declared).
      reflexivity.
    + erewrite bind_thrown
        by (apply assignArgument_beyond; rewrite E; [reflexivity | discriminate]).
      rewrite E. reflexivity.
  - erewrite bind_returned by (apply assignArgument_within; lia).
    rewrite <- (definition_withArgument undefined a this).
    apply IH; rewrite definition_withArgument; lia.
Qed.

End Positional.

(** C1, at the input where the source departs from it.  The definition
    declares the argument [file] and the token [a.txt] is bound: the claim
    wants it under the name [file]; [assignArgumentsFrom] asks
    [argument(index)], which looks the index up among the names, finds
    nothing, and the token is stored under the key [undefined]. Nothing is
    bound under [file]. *)
Theorem assignArgumentsFrom_binds_under_undefined :
  ArgvInput.assignArgumentsFrom ["a.txt"] (ArgvInput.new fileDefinition [])
  = (inr tt, withArgument undefined "a.txt" (ArgvInput.new fileDefinition []))
  /\ ArgvInput.arguments
       (snd (ArgvInput.assignArgumentsFrom ["a.txt"] (ArgvInput.new fileDefinition [])))
     !! Some "file" = None
  /\ ArgvInput.arguments
       (snd (ArgvInput.assignArgumentsFrom ["a.txt"] (ArgvInput.new fileDefinition [])))
     !! undefined = Some "a.txt".
Proof.
  assert (E : ArgvInput.assignArgumentsFrom ["a.txt"] (ArgvInput.new fileDefinition [])
              = (inr tt, withArgument undefined "a.txt" (ArgvInput.new fileDefinition []))).
  { unfold ArgvInput.assignArgumentsFrom, forEachIndexed.
    rewrite forEachFrom_within by (simpl; lia). reflexivity. }
  rewrite E. split; [reflexivity|]. unfold ArgvInput.arguments. simpl. split.
  - rewrite lookup_insert_ne by discriminate. apply lookup_empty.
  - apply lookup_insert_eq.
Qed.

(** C3: when the definition declares at least one argument and there are
    more positional tokens than declared arguments, binding throws the
    too-many-arguments error, and its message lists the names of all declared
    arguments, in declaration order, joined by a comma and a space. *)
Theorem assignArgumentsFrom_too_many (this : ArgvInput.t) (args : list string) :
  InputDefinition.arguments (ArgvInput.definition this) <> [] ->
  (length (InputDefinition.arguments (ArgvInput.definition this)) < length args)%nat ->
  fst (ArgvInput.assignArgumentsFrom args this)
  = inl (TooManyArgumentsError
           (map InputArgument.name (InputDefinition.arguments (ArgvInput.definition this))))
  /\ message (TooManyArgumentsError
                (map InputArgument.name (InputDefinition.arguments (ArgvInput.definition this))))
     = "Too many arguments: expected arguments " ++ quote
         ++ String.concat ", "
              (map InputArgument.name (InputDefinition.arguments (ArgvInput.definition this)))
         ++ quote.
Proof.
  intros Hne Hlt. split; [|reflexivity].
  unfold ArgvInput.assignArgumentsFrom, forEachIndexed.
  rewrite forEachFrom_beyond by (simpl; lia).
  destruct (InputDefinition.arguments (ArgvInput.definition this)); [congruence|reflexivity].
Qed.

Lemma assignArgumentsFrom_too_many_witness :
  InputDefinition.arguments (ArgvInput.definition (ArgvInput.new copyDefinition [])) <> []
  /\ (length (InputDefinition.arguments (ArgvInput.definition (ArgvInput.new copyDefinition [])))
      < length ["a"; "b"; "c"])%nat
  /\ fst (ArgvInput.assignArgumentsFrom ["a"; "b"; "c"] (ArgvInput.new copyDefinition []))
     = inl (TooManyArgumentsError ["source"; "target"]).
Proof.
  split; [discriminate|]. split; [simpl; lia|].
  apply (assignArgumentsFrom_too_many (ArgvInput.new copyDefinition []) ["a"; "b"; "c"]).
  - discriminate.
  - simpl; lia.
Defined.

(** C7: binding a non-empty list of positional tokens throws the
    no-arguments-expected error exactly when the definition declares no
    argument at all. *)
Theorem assignArgumentsFrom_none_expected (this : ArgvInput.t) (args : list string) :
  args <> [] ->
  fst (ArgvInput.assignArgumentsFrom args this) = inl NoArgumentsExpectedError
  <-> InputDefinition.arguments (ArgvInput.definition this) = [].
Proof.
  intros Hargs. unfold ArgvInput.assignArgumentsFrom, forEachIndexed. split.
  - intros Hthrown.
    destruct (decide (length args
                      <= length (InputDefinition.arguments (ArgvInput.definition this)))%nat)
      as [Hle|Hgt].
    + rewrite forEachFrom_within in Hthrown by (simpl; lia). discriminate.
    + rewrite forEachFrom_beyond in Hthrown by (simpl; lia).
      destruct (InputDefinition.arguments (ArgvInput.definition this));
        [reflexivity|discriminate].
  - intros Hnone. rewrite forEachFrom_beyond.
    + now rewrite Hnone.
    + lia.
    + rewrite Hnone. destruct args; [congruence|simpl; lia].
Qed.

Lemma assignArgumentsFrom_none_expected_witness :
  ["a.txt"] <> []
  /\ (fst (ArgvInput.assignArgumentsFrom ["a.txt"] (ArgvInput.new InputDefinition.new []))
      = inl NoArgumentsExpectedError
      <-> InputDefinition.arguments (ArgvInput.definition (ArgvInput.new InputDefinition.new []))
          = []).
Proof.
  split; [discriminate|].
  apply (assignArgumentsFrom_none_expected (ArgvInput.new InputDefinition.new []) ["a.txt"]).
  discriminate.
Defined.

(** C8: with fewer positional tokens than declared arguments, binding
    returns normally; the definition is untouched, and every argument at a
    position no token reaches keeps whatever was (or was not) bound under its
    name before: nothing checks that it received a value. *)
Theorem assignArgumentsFrom_too_few (this : ArgvInput.t) (args : list string) :
  (length args < length (InputDefinition.arguments (ArgvInput.definition this)))%nat ->
  exists this',
    ArgvInput.assignArgumentsFrom args this = (inr tt, this')
    /\ ArgvInput.definition this' = ArgvInput.definition this
    /\ forall (j : nat) (a : InputArgument.t),
         (length args <= j)%nat ->
         InputDefinition.arguments (ArgvInput.definition this) !! j = Some a ->
         ArgvInput.arguments this' !! Some (InputArgument.name a)
         = ArgvInput.arguments this !! Some (InputArgument.name a).
Proof.
  intros Hlt. eexists. split; [|split].
  - unfold ArgvInput.assignArgumentsFrom, forEachIndexed.
    apply forEachFrom_within. simpl; lia.
  - apply definition_foldl_withArgument.
  - intros j a _ _. apply lookup_foldl_withArgument.
Qed.

Lemma assignArgumentsFrom_too_few_witness :
  (length ["a.txt"]
   < length (InputDefinition.arguments (ArgvInput.definition (ArgvInput.new copyDefinition []))))%nat
  /\ exists this',
       ArgvInput.assignArgumentsFrom ["a.txt"] (ArgvInput.new copyDefinition []) = (inr tt, this')
       /\ ArgvInput.definition this' = ArgvInput.definition (ArgvInput.new copyDefinition [])
       /\ forall (j : nat) (a : InputArgument.t),
            (length ["a.txt"] <= j)%nat ->
            InputDefinition.arguments (ArgvInput.definition (ArgvInput.new copyDefinition [])) !! j
            = Some a ->
            ArgvInput.arguments this' !! Some (InputArgument.name a)
            = ArgvInput.arguments (ArgvInput.new copyDefinition []) !! Some (InputArgument.name a).
Proof.
  split; [simpl; lia|].
  apply (assignArgumentsFrom_too_few (ArgvInput.new copyDefinition []) ["a.txt"]).
  simpl; lia.
Defined.

(** C10: [firstArgument] always yields a string: the empty string when no
    positional token was parsed, the first parsed positional token
    otherwise. *)
Theorem firstArgument_total (this : ArgvInput.t) :
  ArgvInput.firstArgument this
  = match ArgvInput.positional (ArgvInput.parsed this) with
    | [] => EmptyString
    | first :: _ => first
    end.
Proof.
  unfold ArgvInput.firstArgument.
  destruct (ArgvInput.positional (ArgvInput.parsed this)); reflexivity.
Qed.

(** ** Registration *)

Section Registration.

Implicit Types (d : InputDefinition.t) (o : InputOption.t) (a : InputArgument.t).

(** A loop whose callback only checks and throws. *)
Lemma forEach_guard {St A : Type} (p : A -> bool) (mk : A -> Error) (l : list A) (s : St) :
  forEach (fun x => if p x then throw (mk x) else ret tt) l s
  = match List.find p l with
    | Some x => (inl (mk x), s)
    | None => (inr tt, s)
    end.
Proof.
  induction l as [|x l IH]; simpl; [reflexivity|].
  unfold bind. destruct (p x); simpl; [reflexivity|]. apply IH.
Qed.

Lemma prefix_refl (s : string) : String.prefix s s = true.
Proof.
  induction s as [|c s IH]; simpl; [reflexivity|].
  destruct (ascii_dec c c); [assumption|congruence].
Qed.

(** Every string contains itself. *)
Lemma contains_refl (s : string) : Str.contains s s = true.
Proof.
  unfold Str.contains. destruct s as [|c s]; [reflexivity|].
  cbn [String.index]. now rewrite prefix_refl.
Qed.

Lemma includes_member (s : string) (needles : list string) :
  s ∈ needles -> Str.includes s needles = true.
Proof.
  intros Hin. unfold Str.includes. apply existsb_exists.
  exists s. split; [now apply list_elem_of_In|apply contains_refl].
Qed.

Lemma scanShortcuts_cons d (sc : string) (scs : list string) :
  InputDefinition.scanShortcuts (sc :: scs) d
  = match List.find (fun o' => Str.includes sc (InputOption.shortcuts o'))
            (InputDefinition.options d) with
    | Some o' => (inl (DuplicateShortcutError sc (InputOption.name o')), d)
    | None => InputDefinition.scanShortcuts scs d
    end.
Proof.
  unfold InputDefinition.scanShortcuts. simpl.
  unfold bind at 1. unfold bind at 1. unfold gets at 1.
  rewrite (forEach_guard
             (fun option' => Str.includes sc (InputOption.shortcuts option'))
             (fun option' => DuplicateShortcutError sc (InputOption.name option'))).
  destruct (List.find _ (InputDefinition.options d)); reflexivity.
Qed.

(** The shortcut scan of [addOption]: it leaves the definition alone and
    either passes, no shortcut colliding with any registered option, or
    throws for a shortcut and a registered option that collide. *)
Lemma shortcut_scan d (shortcuts : list string) :
  (InputDefinition.scanShortcuts shortcuts d = (inr tt, d)
   /\ forall s o', s ∈ shortcuts -> o' ∈ InputDefinition.options d ->
        Str.includes s (InputOption.shortcuts o') = false)
  \/ (exists s o',
        s ∈ shortcuts /\ o' ∈ InputDefinition.options d
        /\ Str.includes s (InputOption.shortcuts o') = true
        /\ InputDefinition.scanShortcuts shortcuts d
           = (inl (DuplicateShortcutError s (InputOption.name o')), d)).
Proof.
  induction shortcuts as [|sc scs IH].
  - left. split; [reflexivity|]. intros s o' Hs. inversion Hs.
  - rewrite scanShortcuts_cons.
    destruct (List.find _ (InputDefinition.options d)) as [o'|] eqn:Hfind.
    + right. apply find_some in Hfind as [Hin Hinc]. simpl in Hinc.
      exists sc, o'. split; [apply list_elem_of_here|].
      split; [now apply list_elem_of_In|]. split; [exact Hinc|reflexivity].
    + destruct IH as [[Hscan Hfree]|(s & o' & Hs & Ho' & Hinc & Hscan)].
      * left. split; [exact Hscan|].
        intros s o' Hs Ho'. apply elem_of_cons in Hs as [->|Hs]; [|eauto].
        apply (find_none _ _ Hfind). now apply list_elem_of_In.
      * right. exists s, o'. repeat split; auto. now apply list_elem_of_further.
Qed.

(** [addOption] case by case. *)
Lemma addOption_cases d o :
  (InputDefinition.hasOption d (Name (InputOption.name o)) = true
   /\ InputDefinition.addOption o d = (inl (DuplicateOptionError (InputOption.name o)), d))
  \/ (InputDefinition.hasOption d (Name (InputOption.name o)) = false
      /\ exists s o',
           s ∈ InputOption.shortcuts o /\ o' ∈ InputDefinition.options d
           /\ Str.includes s (InputOption.shortcuts o') = true
           /\ InputDefinition.addOption o d
              = (inl (DuplicateShortcutError s (InputOption.name o')), d))
  \/ (InputDefinition.hasOption d (Name (InputOption.name o)) = false
      /\ (forall s o', s ∈ InputOption.shortcuts o -> o' ∈ InputDefinition.options d ->
            Str.includes s (InputOption.shortcuts o') = false)
      /\ InputDefinition.addOption o d
         = (inr tt,
            {| InputDefinition.options := InputDefinition.options d ++ [o];
               InputDefinition.arguments := InputDefinition.arguments d |})).
Proof.
  unfold InputDefinition.addOption, bind, gets.
  destruct (InputDefinition.hasOption d (Name (InputOption.name o))) eqn:Hname.
  - left. split; reflexivity.
  - right. cbn [ret].
    destruct (shortcut_scan d (InputOption.shortcuts o))
      as [[Hscan Hfree]|(s & o' & Hs & Ho' & Hinc & Hscan)]; rewrite Hscan.
    + right. split; [reflexivity|]. split; [exact Hfree|reflexivity].
    + left. split; [reflexivity|]. exists s, o'. repeat split; auto.
Qed.

End Registration.

(** C6: adding an argument whose name is the name of an argument already
    registered throws the duplicate-argument error, and the definition the
    failed call leaves behind is the definition it was given: the argument
    set is unchanged. *)
Theorem addArgument_duplicate_name
    (d : InputDefinition.t) (registered a : InputArgument.t) :
  registered ∈ InputDefinition.arguments d ->
  InputArgument.name registered = InputArgument.name a ->
  InputDefinition.addArgument a d
  = (inl (DuplicateArgumentError (InputArgument.name a)), d).
Proof.
  intros Hin Hname. unfold InputDefinition.addArgument, bind, gets.
  assert (H : InputDefinition.hasArgument d (Name (InputArgument.name a)) = true)
    by (apply hasArgument_Name; eauto).
  rewrite H. reflexivity.
Qed.

Lemma addArgument_duplicate_name_witness :
  plainArgument "file" ∈ InputDefinition.arguments fileDefinition
  /\ InputArgument.name (plainArgument "file")
     = InputArgument.name (InputArgument.mk "file" (Some "the file to read") true None)
  /\ InputDefinition.addArgument
       (InputArgument.mk "file" (Some "the file to read") true None) fileDefinition
     = (inl (DuplicateArgumentError "file"), fileDefinition).
Proof.
  split; [apply list_elem_of_here|]. split; [reflexivity|].
  apply (addArgument_duplicate_name fileDefinition (plainArgument "file")
           (InputArgument.mk "file" (Some "the file to read") true None)).
  - apply list_elem_of_here.
  - reflexivity.
Defined.

(** C2 as written does not hold: the name of the new option is checked
    before its shortcuts.  Adding a second option named [verbose] with the
    shortcut [v] to a definition that has [verbose] with [v] throws the
    duplicate-option error, not the duplicate-shortcut error. *)
Lemma addOption_same_name_reports_the_name :
  ~ shared_shortcut_always_shortcut_error.
Proof.
  intros claim.
  destruct (claim fileDefinition (plainOption "verbose" ["v"])
              (plainOption "verbose" ["v"]) "v") as (s' & owner & H).
  - apply list_elem_of_here.
  - apply list_elem_of_here.
  - apply list_elem_of_here.
  - vm_compute in H. discriminate H.
Qed.

(** C2, amended: when the new option shares a shortcut with a registered
    option, [addOption] throws and leaves the definition as it was; the
    error is the duplicate-shortcut error, for one of the new option's
    shortcuts and a registered option, unless the new option's name is
    already registered, in which case it is the duplicate-option error. *)
Theorem addOption_shared_shortcut
    (d : InputDefinition.t) (existing o : InputOption.t) (s : string) :
  existing ∈ InputDefinition.options d ->
  s ∈ InputOption.shortcuts o ->
  s ∈ InputOption.shortcuts existing ->
  (InputDefinition.hasOption d (Name (InputOption.name o)) = false
   /\ exists s' owner,
        s' ∈ InputOption.shortcuts o
        /\ owner ∈ InputDefinition.options d
        /\ InputDefinition.addOption o d
           = (inl (DuplicateShortcutError s' (InputOption.name owner)), d))
  \/ (InputDefinition.hasOption d (Name (InputOption.name o)) = true
      /\ InputDefinition.addOption o d
         = (inl (DuplicateOptionError (InputOption.name o)), d)).
Proof.
  intros Hexisting Hs Hshared.
  destruct (addOption_cases d o)
    as [[Hname Hrun]|[(Hname & s' & o' & Hs' & Ho' & _ & Hrun)|(Hname & Hfree & _)]].
  - right. split; assumption.
  - left. split; [assumption|]. exists s', o'. repeat split; assumption.
  - exfalso. specialize (Hfree s existing Hs Hexisting).
    rewrite includes_member in Hfree by assumption. discriminate.
Qed.

Lemma addOption_shared_shortcut_witness :
  plainOption "verbose" ["v"] ∈ InputDefinition.options fileDefinition
  /\ "v" ∈ InputOption.shortcuts (plainOption "version" ["V"; "v"])
  /\ "v" ∈ InputOption.shortcuts (plainOption "verbose" ["v"])
  /\ ((InputDefinition.hasOption fileDefinition
         (Name (InputOption.name (plainOption "version" ["V"; "v"]))) = false
       /\ exists s' owner,
            s' ∈ InputOption.shortcuts (plainOption "version" ["V"; "v"])
            /\ owner ∈ InputDefinition.options fileDefinition
            /\ InputDefinition.addOption (plainOption "version" ["V"; "v"]) fileDefinition
               = (inl (DuplicateShortcutError s' (InputOption.name owner)), fileDefinition))
      \/ (InputDefinition.hasOption fileDefinition
            (Name (InputOption.name (plainOption "version" ["V"; "v"]))) = true
          /\ InputDefinition.addOption (plainOption "version" ["V"; "v"]) fileDefinition
             = (inl (DuplicateOptionError
                       (InputOption.name (plainOption "version" ["V"; "v"]))),
                fileDefinition))).
Proof.
  split; [apply list_elem_of_here|].
  split; [apply list_elem_of_further, list_elem_of_here|].
  split; [apply list_elem_of_here|].
  apply (addOption_shared_shortcut fileDefinition (plainOption "verbose" ["v"])
           (plainOption "version" ["V"; "v"]) "v").
  - apply list_elem_of_here.
  - apply list_elem_of_further, list_elem_of_here.
  - apply list_elem_of_here.
Defined.

(** ** Binding option tokens *)

Section Options.

Implicit Types (this : ArgvInput.t) (name : string) (v : value).

Lemma existsb_find {A : Type} (p : A -> bool) (l : list A) :
  existsb p l = truthy (List.find p l).
Proof. induction l as [|x l IH]; simpl; [reflexivity|]. now destruct (p x). Qed.

Lemma hasOptionShortcut_optionByShortcut (d : InputDefinition.t) name :
  InputDefinition.hasOptionShortcut d name
  = truthy (InputDefinition.optionByShortcut d name).
Proof. apply existsb_find. Qed.

Lemma assignOption_by_shortcut this name v (o : InputOption.t) :
  InputDefinition.optionByShortcut (ArgvInput.definition this) name = Some o ->
  ArgvInput.assignOption (name, v) this
  = (inr tt, withOption (Some (InputOption.name o)) v this).
Proof.
  intros H. unfold ArgvInput.assignOption, bind, gets.
  rewrite hasOptionShortcut_optionByShortcut, H. reflexivity.
Qed.

Lemma assignOption_by_name this name v :
  InputDefinition.hasOptionShortcut (ArgvInput.definition this) name = false ->
  InputDefinition.hasOption (ArgvInput.definition this) (Name name) = true ->
  ArgvInput.assignOption (name, v) this = (inr tt, withOption (Some name) v this).
Proof.
  intros Hs Hn. unfold ArgvInput.assignOption, bind, gets.
  rewrite Hs, Hn. reflexivity.
Qed.

Lemma assignOption_unknown this name v :
  InputDefinition.hasOptionShortcut (ArgvInput.definition this) name = false ->
  InputDefinition.hasOption (ArgvInput.definition this) (Name name) = false ->
  ArgvInput.assignOption (name, v) this = (inl (UnexpectedOptionError name), this).
Proof.
  intros Hs Hn. unfold ArgvInput.assignOption, bind, gets.
  rewrite Hs, Hn. reflexivity.
Qed.

(** A token whose key resolves is stored under the name of a registered
    option; the definition is not touched. *)
Lemma assignOption_recognised this name v :
  recognised (ArgvInput.definition this) name = true ->
  exists target,
    ArgvInput.assignOption (name, v) this = (inr tt, withOption (Some target) v this).
Proof.
  unfold recognised. intros H.
  destruct (InputDefinition.hasOptionShortcut (ArgvInput.definition this) name) eqn:Hs.
  - rewrite hasOptionShortcut_optionByShortcut in Hs.
    destruct (InputDefinition.optionByShortcut (ArgvInput.definition this) name)
      as [o|] eqn:Ho; [|discriminate].
    exists (InputOption.name o). now apply assignOption_by_shortcut.
  - simpl in H. exists name. now apply assignOption_by_name.
Qed.

Lemma forEach_assignOption_recognised (entries : list (string * value)) : forall this,
  forallb (fun entry => recognised (ArgvInput.definition this) entry.1) entries = true ->
  exists this',
    forEach ArgvInput.assignOption entries this = (inr tt, this')
    /\ ArgvInput.definition this' = ArgvInput.definition this.
Proof.
  induction entries as [|[name v] entries IH]; intros this H; simpl in *.
  - eauto.
  - apply andb_prop in H as [Hhead Htail].
    destruct (assignOption_recognised this name v Hhead) as [target Hrun].
    erewrite bind_returned by exact Hrun.
    destruct (IH (withOption (Some target) v this)) as (this' & Hrest & Hdef).
    + exact Htail.
    + exists this'. split; [exact Hrest|]. rewrite Hdef. reflexivity.
Qed.

(** Under the registry invariant a shortcut resolves to the option that
    lists it. *)
Lemma optionByShortcut_owner (d : InputDefinition.t) (o : InputOption.t) (s : string) :
  UniqueShortcuts d ->
  o ∈ InputDefinition.options d ->
  s ∈ InputOption.shortcuts o ->
  InputDefinition.optionByShortcut d s = Some o.
Proof.
  intros Huniq Hin Hs. unfold InputDefinition.optionByShortcut, SetOf.find.
  destruct (List.find (InputDefinition.ownsShortcut s) (InputDefinition.options d))
    as [o'|] eqn:Hfind.
  - apply find_some in Hfind as [Hin' Howns].
    apply ownsShortcut_true in Howns. apply list_elem_of_In in Hin'.
    f_equal. eapply Huniq; eauto.
  - apply list_elem_of_In in Hin.
    pose proof (find_none _ _ Hfind o Hin) as Hnot.
    apply ownsShortcut_true in Hs. congruence.
Qed.

End Options.

(** A key that no registered option lists as a shortcut. *)
Lemma hasOptionShortcut_false (d : InputDefinition.t) (key : string) :
  Forall (fun o => key ∉ InputOption.shortcuts o) (InputDefinition.options d) ->
  InputDefinition.hasOptionShortcut d key = false.
Proof.
  intros Hall. rewrite Forall_forall in Hall.
  destruct (InputDefinition.hasOptionShortcut d key) eqn:E; [exfalso|reflexivity].
  unfold InputDefinition.hasOptionShortcut, SetOf.includes in E.
  apply existsb_exists in E as (o & Hin & Howns).
  apply ownsShortcut_true in Howns. apply list_elem_of_In in Hin.
  exact (Hall o Hin Howns).
Qed.

(** A key that is no option's name and no option's shortcut passes neither
    test of the binder. *)
Lemma unmatched_key (d : InputDefinition.t) (key : string) :
  Forall (fun o => InputOption.name o <> key /\ key ∉ InputOption.shortcuts o)
    (InputDefinition.options d) ->
  InputDefinition.hasOptionShortcut d key = false
  /\ InputDefinition.hasOption d (Name key) = false.
Proof.
  intros Hall. split.
  - apply hasOptionShortcut_false. eapply Forall_impl; [exact Hall|].
    intros o [_ Hnot]. exact Hnot.
  - rewrite Forall_forall in Hall.
    destruct (InputDefinition.hasOption d (Name key)) eqn:E; [exfalso|reflexivity].
    apply hasOption_Name in E as (o & Hin & Hname).
    destruct (Hall o Hin) as [Hne _]. contradiction.
Qed.

(** C4: an option token whose key is neither the name nor a shortcut of any
    registered option makes binding throw the unexpected-option error, and
    the message quotes that key.  The token is reached when the entries
    before it all resolve; what follows it is of no account. *)
Theorem assignOptionsFrom_unexpected
    (this : ArgvInput.t) (before after : list (string * value))
    (key : string) (v : value) :
  forallb (fun entry => recognised (ArgvInput.definition this) entry.1) before = true ->
  Forall (fun o => InputOption.name o <> key /\ key ∉ InputOption.shortcuts o)
    (InputDefinition.options (ArgvInput.definition this)) ->
  fst (ArgvInput.assignOptionsFrom (before ++ (key, v) :: after) this)
  = inl (UnexpectedOptionError key)
  /\ message (UnexpectedOptionError key) = "Unexpected option " ++ quote ++ key ++ quote.
Proof.
  intros Hbefore Hkey. split; [|reflexivity].
  unfold ArgvInput.assignOptionsFrom. rewrite forEach_app.
  destruct (forEach_assignOption_recognised before this Hbefore) as (this' & -> & Hdef).
  cbn [forEach]. erewrite bind_thrown; [reflexivity|].
  apply assignOption_unknown; rewrite Hdef; now apply unmatched_key.
Qed.

Lemma assignOptionsFrom_unexpected_witness :
  forallb (fun entry => recognised (ArgvInput.definition (ArgvInput.new fileDefinition [])) entry.1)
    [("v", VBoolean true)] = true
  /\ Forall (fun o => InputOption.name o <> "force" /\ "force" ∉ InputOption.shortcuts o)
       (InputDefinition.options (ArgvInput.definition (ArgvInput.new fileDefinition [])))
  /\ fst (ArgvInput.assignOptionsFrom
            ([("v", VBoolean true)] ++ ("force", VBoolean true) :: [("depth", VNumber 2)])
            (ArgvInput.new fileDefinition []))
     = inl (UnexpectedOptionError "force")
  /\ message (UnexpectedOptionError "force") = "Unexpected option " ++ quote ++ "force" ++ quote.
Proof.
  split; [reflexivity|].
  split; [apply (bool_decide_unpack _); vm_compute; reflexivity|].
  apply (assignOptionsFrom_unexpected (ArgvInput.new fileDefinition [])
           [("v", VBoolean true)] [("depth", VNumber 2)] "force" (VBoolean true)).
  - reflexivity.
  - apply (bool_decide_unpack _); vm_compute; reflexivity.
Defined.

(** ** The registry invariant *)

Lemma UniqueShortcuts_new : UniqueShortcuts InputDefinition.new.
Proof. intros o1 o2 s H. inversion H. Qed.

(** A successful [addOption] appends the option and keeps the shortcuts of
    different options apart. *)
Lemma addOption_UniqueShortcuts (d d' : InputDefinition.t) (o : InputOption.t) :
  UniqueShortcuts d ->
  InputDefinition.addOption o d = (inr tt, d') ->
  UniqueShortcuts d'.
Proof.
  intros Huniq Hrun.
  destruct (addOption_cases d o)
    as [[_ Hthrown]|[(_ & s' & o' & _ & _ & _ & Hthrown)|(_ & Hfree & Hadded)]];
    try (rewrite Hthrown in Hrun; discriminate).
  rewrite Hadded in Hrun. injection Hrun as <-.
  intros o1 o2 s H1 H2 Hs1 Hs2. simpl in H1, H2.
  apply elem_of_app in H1 as [H1|H1]; apply elem_of_app in H2 as [H2|H2].
  - eapply Huniq; eauto.
  - apply list_elem_of_singleton in H2. subst o2.
    specialize (Hfree s o1 Hs2 H1). rewrite includes_member in Hfree by assumption.
    discriminate.
  - apply list_elem_of_singleton in H1. subst o1.
    specialize (Hfree s o2 Hs1 H2). rewrite includes_member in Hfree by assumption.
    discriminate.
  - apply list_elem_of_singleton in H1. apply list_elem_of_singleton in H2. congruence.
Qed.

(** [versionDefinition] is what registering its two options, one after the
    other, on a new definition produces. *)
Lemma versionDefinition_registered :
  exists d1,
    InputDefinition.addOption (plainOption "v" ["V"]) InputDefinition.new = (inr tt, d1)
    /\ InputDefinition.addOption (plainOption "verbose" ["v"]) d1 = (inr tt, versionDefinition).
Proof. eexists. split; reflexivity. Qed.

Lemma UniqueShortcuts_versionDefinition : UniqueShortcuts versionDefinition.
Proof.
  destruct versionDefinition_registered as (d1 & H1 & H2).
  eapply addOption_UniqueShortcuts; [|exact H2].
  eapply addOption_UniqueShortcuts; [|exact H1].
  apply UniqueShortcuts_new.
Qed.

(** C5 as written does not hold: shortcuts are tried before names.  In
    [versionDefinition] the option [v] has the shortcut [V]; a token keyed
    [V] is bound under [v], but a token keyed by the full name [v] is taken
    for the shortcut of [verbose] and bound under [verbose]. *)
Lemma name_token_taken_for_shortcut :
  ~ shortcut_token_binds_like_name_token.
Proof.
  intros claim.
  pose proof (claim (ArgvInput.new versionDefinition []) (plainOption "v" ["V"]) "V"
                (VBoolean true) UniqueShortcuts_versionDefinition) as H.
  assert (Heq : ArgvInput.assignOptionsFrom [("V", VBoolean true)]
                  (ArgvInput.new versionDefinition [])
                = ArgvInput.assignOptionsFrom
                    [(InputOption.name (plainOption "v" ["V"]), VBoolean true)]
                    (ArgvInput.new versionDefinition [])).
  { apply H; [apply list_elem_of_here | apply list_elem_of_here]. }
  apply (f_equal (fun r => ArgvInput.options (snd r) !! Some "v")) in Heq.
  vm_compute in Heq. discriminate Heq.
Qed.

(** C5, amended: in a definition where no two options share a shortcut, let
    an option be registered whose full name is not a shortcut of any
    registered option.  Then a token keyed by one of its shortcuts and the
    same token keyed by its full name are bound alike: both return, and both
    store the value under the option's full name. *)
Theorem shortcut_token_binds_like_name
    (this : ArgvInput.t) (o : InputOption.t) (s : string) (v : value) :
  UniqueShortcuts (ArgvInput.definition this) ->
  o ∈ InputDefinition.options (ArgvInput.definition this) ->
  s ∈ InputOption.shortcuts o ->
  Forall (fun o' => InputOption.name o ∉ InputOption.shortcuts o')
    (InputDefinition.options (ArgvInput.definition this)) ->
  ArgvInput.assignOptionsFrom [(s, v)] this
  = ArgvInput.assignOptionsFrom [(InputOption.name o, v)] this
  /\ ArgvInput.assignOptionsFrom [(s, v)] this
     = (inr tt, withOption (Some (InputOption.name o)) v this).
Proof.
  intros Huniq Hin Hs Hname.
  assert (Hshort : ArgvInput.assignOptionsFrom [(s, v)] this
                   = (inr tt, withOption (Some (InputOption.name o)) v this)).
  { unfold ArgvInput.assignOptionsFrom. cbn [forEach].
    erewrite bind_returned
      by (apply (assignOption_by_shortcut this s v o); now apply optionByShortcut_owner).
    reflexivity. }
  split; [|exact Hshort]. rewrite Hshort.
  unfold ArgvInput.assignOptionsFrom. cbn [forEach].
  erewrite bind_returned; [reflexivity|].
  apply assignOption_by_name; [now apply hasOptionShortcut_false|].
  apply hasOption_Name. eauto.
Qed.

Lemma shortcut_token_binds_like_name_witness :
  UniqueShortcuts (ArgvInput.definition (ArgvInput.new versionDefinition []))
  /\ plainOption "verbose" ["v"]
     ∈ InputDefinition.options (ArgvInput.definition (ArgvInput.new versionDefinition []))
  /\ "v" ∈ InputOption.shortcuts (plainOption "verbose" ["v"])
  /\ Forall (fun o' => InputOption.name (plainOption "verbose" ["v"]) ∉ InputOption.shortcuts o')
       (InputDefinition.options (ArgvInput.definition (ArgvInput.new versionDefinition [])))
  /\ ArgvInput.assignOptionsFrom [("v", VBoolean true)] (ArgvInput.new versionDefinition [])
     = ArgvInput.assignOptionsFrom
         [(InputOption.name (plainOption "verbose" ["v"]), VBoolean true)]
         (ArgvInput.new versionDefinition [])
  /\ ArgvInput.assignOptionsFrom [("v", VBoolean true)] (ArgvInput.new versionDefinition [])
     = (inr tt,
        withOption (Some (InputOption.name (plainOption "verbose" ["v"]))) (VBoolean true)
          (ArgvInput.new versionDefinition [])).
Proof.
  split; [exact UniqueShortcuts_versionDefinition|].
  split; [apply list_elem_of_further, list_elem_of_here|].
  split; [apply list_elem_of_here|].
  split; [apply (bool_decide_unpack _); vm_compute; reflexivity|].
  apply (shortcut_token_binds_like_name (ArgvInput.new versionDefinition [])
           (plainOption "verbose" ["v"]) "v" (VBoolean true)).
  - exact UniqueShortcuts_versionDefinition.
  - apply list_elem_of_further, list_elem_of_here.
  - apply list_elem_of_here.
  - apply (bool_decide_unpack _); vm_compute; reflexivity.
Defined.

(** ** Two runs of the binder *)

Section TwoRuns.

Variables P Q : Prop.

Lemma ret_Related {St A : Type} (R : St -> St -> Prop) (a : A) :
  Related R (ret a).
Proof. intros s1 s2 HR. split; [reflexivity|exact HR]. Qed.

Lemma bind_Related {St A B : Type} (R : St -> St -> Prop)
    (m : Eff St A) (k : A -> Eff St B) :
  Related R m -> (forall a, Related R (k a)) -> Related R (bind m k).
Proof.
  intros Hm Hk s1 s2 HR. destruct (Hm s1 s2 HR) as [Hfst Hsnd]. unfold bind.
  destruct (m s1) as [[e1|a1] s1'], (m s2) as [[e2|a2] s2'];
    simpl in *; try discriminate.
  - injection Hfst as ->. split; [reflexivity|exact Hsnd].
  - injection Hfst as ->. apply Hk. exact Hsnd.
Qed.

Lemma gets_Related {St A : Type} (R : St -> St -> Prop) (f : St -> A) :
  (forall s1 s2, R s1 s2 -> f s1 = f s2) -> Related R (gets f).
Proof.
  intros Hf s1 s2 HR. unfold gets. simpl. split; [|exact HR].
  now rewrite (Hf s1 s2 HR).
Qed.

Lemma forEach_Related {St A : Type} (R : St -> St -> Prop)
    (f : A -> Eff St unit) (l : list A) :
  (forall x, Related R (f x)) -> Related R (forEach f l).
Proof.
  intros Hf. induction l as [|x l IH]; cbn [forEach].
  - apply ret_Related.
  - apply bind_Related; [apply Hf|intros _; exact IH].
Qed.

Lemma forEachFrom_Related {St A : Type} (R : St -> St -> Prop)
    (f : A -> nat -> Eff St unit) (l : list A) :
  (forall x i, Related R (f x i)) -> forall i, Related R (forEachFrom i f l).
Proof.
  intros Hf. induction l as [|x l IH]; intros i; cbn [forEachFrom].
  - apply ret_Related.
  - apply bind_Related; [apply Hf|intros _; apply IH].
Qed.

(** What one positional token does depends on the definition and on the
    token's index only; it touches the bound arguments, in the same way in
    both runs. *)
Lemma assignArgument_Related (argument : string) (index : nat) :
  Related (sameInputs P Q) (ArgvInput.assignArgument argument index).
Proof.
  intros this1 this2 (Hd & Hp & Ha & Ho).
  unfold ArgvInput.assignArgument, bind, gets. rewrite Hd.
  destruct (InputDefinition.hasArgument _ _).
  - simpl. split; [reflexivity|]. unfold sameInputs. simpl.
    repeat split; try assumption.
    intros HP. unfold ArgvInput.arguments in *. simpl. now rewrite (Ha HP).
  - destruct (SetOf.isEmpty _); simpl; (split; [reflexivity|]);
      repeat split; assumption.
Qed.

(** Likewise for one option token and the bound options. *)
Lemma assignOption_Related (entry : string * value) :
  Related (sameInputs P Q) (ArgvInput.assignOption entry).
Proof.
  destruct entry as [name v]. intros this1 this2 (Hd & Hp & Ha & Ho).
  unfold ArgvInput.assignOption, bind, gets. rewrite Hd.
  destruct (InputDefinition.hasOptionShortcut _ _);
    [|destruct (InputDefinition.hasOption _ _)].
  - simpl. split; [reflexivity|]. unfold sameInputs. simpl.
    repeat split; try assumption.
    intros HQ. unfold ArgvInput.options in *. simpl. now rewrite (Ho HQ).
  - simpl. split; [reflexivity|]. unfold sameInputs. simpl.
    repeat split; try assumption.
    intros HQ. unfold ArgvInput.options in *. simpl. now rewrite (Ho HQ).
  - simpl. split; [reflexivity|]. repeat split; assumption.
Qed.

Lemma assignParsedInput_Related :
  Related (sameInputs P Q) ArgvInput.assignParsedInput.
Proof.
  unfold ArgvInput.assignParsedInput. apply bind_Related.
  - apply gets_Related. intros this1 this2 HR. apply HR.
  - intros p. apply bind_Related.
    + apply forEachFrom_Related. apply assignArgument_Related.
    + intros _. apply forEach_Related. apply assignOption_Related.
Qed.

End TwoRuns.

(** C9: the outcome of binding is a function of the definition and the
    parsed tokens.  Two runs on inputs with the same definition and the same
    tokens complete alike, both returning or both throwing the same error,
    whatever the two inputs had bound before; they leave the same bound
    arguments if they started with the same bound arguments, and the same
    bound options if they started with the same bound options. *)
Theorem assignParsedInput_deterministic (this1 this2 : ArgvInput.t) :
  ArgvInput.definition this1 = ArgvInput.definition this2 ->
  ArgvInput.parsed this1 = ArgvInput.parsed this2 ->
  fst (ArgvInput.assignParsedInput this1) = fst (ArgvInput.assignParsedInput this2)
  /\ (ArgvInput.arguments this1 = ArgvInput.arguments this2 ->
      ArgvInput.arguments (snd (ArgvInput.assignParsedInput this1))
      = ArgvInput.arguments (snd (ArgvInput.assignParsedInput this2)))
  /\ (ArgvInput.options this1 = ArgvInput.options this2 ->
      ArgvInput.options (snd (ArgvInput.assignParsedInput this1))
      = ArgvInput.options (snd (ArgvInput.assignParsedInput this2))).
Proof.
  intros Hd Hp.
  destruct (assignParsedInput_Related
              (ArgvInput.arguments this1 = ArgvInput.arguments this2)
              (ArgvInput.options this1 = ArgvInput.options this2)
              this1 this2) as (Hfst & _ & _ & Ha & Ho).
  - repeat split; auto.
  - repeat split; assumption.
Qed.

Lemma assignParsedInput_deterministic_witness :
  ArgvInput.definition freshInput = ArgvInput.definition reusedInput
  /\ ArgvInput.parsed freshInput = ArgvInput.parsed reusedInput
  /\ fst (ArgvInput.assignParsedInput freshInput)
     = fst (ArgvInput.assignParsedInput reusedInput)
  /\ (ArgvInput.arguments freshInput = ArgvInput.arguments reusedInput ->
      ArgvInput.arguments (snd (ArgvInput.assignParsedInput freshInput))
      = ArgvInput.arguments (snd (ArgvInput.assignParsedInput reusedInput)))
  /\ (ArgvInput.options freshInput = ArgvInput.options reusedInput ->
      ArgvInput.options (snd (ArgvInput.assignParsedInput freshInput))
      = ArgvInput.options (snd (ArgvInput.assignParsedInput reusedInput))).
Proof.
  split; [reflexivity|]. split; [reflexivity|].
  apply (assignParsedInput_deterministic freshInput reusedInput); reflexivity.
Defined.

(** * Further properties of registration *)

Section MoreRegistration.

Implicit Types (d : InputDefinition.t) (o : InputOption.t) (a : InputArgument.t).

Lemma find_snoc_fresh {A : Type} (p : A -> bool) (l : list A) (x : A) :
  existsb p l = false -> p x = true -> List.find p (l ++ [x])%list = Some x.
Proof.
  induction l as [|y l IH]; simpl; intros Hnone Hx.
  - now rewrite Hx.
  - apply orb_false_elim in Hnone as [Hy Hl]. rewrite Hy. now apply IH.
Qed.

Lemma addArgument_cases d a :
  (InputDefinition.hasArgument d (Name (InputArgument.name a)) = true
   /\ InputDefinition.addArgument a d
      = (inl (DuplicateArgumentError (InputArgument.name a)), d))
  \/ (InputDefinition.hasArgument d (Name (InputArgument.name a)) = false
      /\ InputDefinition.addArgument a d
         = (inr tt,
            {| InputDefinition.options := InputDefinition.options d;
               InputDefinition.arguments := (InputDefinition.arguments d ++ [a])%list |})).
Proof.
  unfold InputDefinition.addArgument, bind, gets.
  destruct (InputDefinition.hasArgument d (Name (InputArgument.name a)));
    [left|right]; split; reflexivity.
Qed.

Lemma names_snoc {A : Type} (name : A -> string) (l : list A) (x : A) :
  NoDup (map name l) ->
  existsb (fun y => String.eqb (name y) (name x)) l = false ->
  NoDup (map name (l ++ [x])%list).
Proof.
  intros Hnodup Hfresh. rewrite map_app. apply NoDup_app. split; [exact Hnodup|].
  split; [|apply NoDup_singleton].
  intros n Hin Hx. apply list_elem_of_singleton in Hx. subst n.
  apply list_elem_of_fmap in Hin as (y & Hname & Hy).
  assert (Hfound : existsb (fun y => String.eqb (name y) (name x)) l = true).
  { apply existsb_exists. exists y. split; [now apply list_elem_of_In|].
    apply String.eqb_eq. congruence. }
  congruence.
Qed.

End MoreRegistration.

(** X1: an argument whose name is not registered yet is added: the call
    returns, the argument sits at the next free position, [hasArgument] finds
    it by that position and by its name, [argument] returns the very
    argument for its name, and the options are as before. *)
Theorem addArgument_registers (d : InputDefinition.t) (a : InputArgument.t) :
  InputDefinition.hasArgument d (Name (InputArgument.name a)) = false ->
  exists d',
    InputDefinition.addArgument a d = (inr tt, d')
    /\ InputDefinition.arguments d' = (InputDefinition.arguments d ++ [a])%list
    /\ InputDefinition.options d' = InputDefinition.options d
    /\ InputDefinition.hasArgument d' (Name (InputArgument.name a)) = true
    /\ InputDefinition.hasArgument d'
         (Index (Z.of_nat (length (InputDefinition.arguments d)))) = true
    /\ InputDefinition.argument d' (Name (InputArgument.name a)) = Some a.
Proof.
  intros Hfresh.
  destruct (addArgument_cases d a) as [[Hdup _]|[_ Hrun]]; [congruence|].
  eexists. split; [exact Hrun|]. split; [reflexivity|]. split; [reflexivity|].
  split; [|split].
  - apply hasArgument_Name. exists a. split; [|reflexivity].
    simpl. apply elem_of_app. right. apply list_elem_of_here.
  - apply hasArgument_Index_lt. simpl. rewrite length_app. simpl. lia.
  - unfold InputDefinition.argument, SetOf.find. simpl.
    apply find_snoc_fresh; [exact Hfresh|apply String.eqb_refl].
Qed.

Lemma addArgument_registers_witness :
  InputDefinition.hasArgument fileDefinition
    (Name (InputArgument.name (plainArgument "target"))) = false
  /\ exists d',
       InputDefinition.addArgument (plainArgument "target") fileDefinition = (inr tt, d')
       /\ InputDefinition.arguments d'
          = (InputDefinition.arguments fileDefinition ++ [plainArgument "target"])%list
       /\ InputDefinition.options d' = InputDefinition.options fileDefinition
       /\ InputDefinition.hasArgument d'
            (Name (InputArgument.name (plainArgument "target"))) = true
       /\ InputDefinition.hasArgument d'
            (Index (Z.of_nat (length (InputDefinition.arguments fileDefinition)))) = true
       /\ InputDefinition.argument d' (Name (InputArgument.name (plainArgument "target")))
          = Some (plainArgument "target").
Proof.
  split; [reflexivity|].
  apply (addArgument_registers fileDefinition (plainArgument "target")). reflexivity.
Defined.

(** X2: an option whose name is not registered yet and none of whose
    shortcuts is reported by [Str(shortcut).includes] against the shortcuts
    of a registered option is added: the call returns, the option is
    appended, [hasOption] finds it by its name, [option] returns the very
    option for its name, and the arguments are as before. *)
Theorem addOption_registers (d : InputDefinition.t) (o : InputOption.t) :
  InputDefinition.hasOption d (Name (InputOption.name o)) = false ->
  Forall (fun s =>
            Forall (fun o' => Str.includes s (InputOption.shortcuts o') = false)
              (InputDefinition.options d))
    (InputOption.shortcuts o) ->
  exists d',
    InputDefinition.addOption o d = (inr tt, d')
    /\ InputDefinition.options d' = (InputDefinition.options d ++ [o])%list
    /\ InputDefinition.arguments d' = InputDefinition.arguments d
    /\ InputDefinition.hasOption d' (Name (InputOption.name o)) = true
    /\ InputDefinition.option_ d' (Name (InputOption.name o)) = Some o.
Proof.
  intros Hfresh Hfree.
  destruct (addOption_cases d o)
    as [[Hdup _]|[(_ & s & o' & Hs & Ho' & Hinc & _)|(_ & _ & Hrun)]].
  - congruence.
  - exfalso. rewrite Forall_forall in Hfree. specialize (Hfree s Hs).
    rewrite Forall_forall in Hfree. specialize (Hfree o' Ho'). congruence.
  - eexists. split; [exact Hrun|]. split; [reflexivity|]. split; [reflexivity|]. split.
    + apply hasOption_Name. exists o. split; [|reflexivity].
      simpl. apply elem_of_app. right. apply list_elem_of_here.
    + unfold InputDefinition.option_, SetOf.find. simpl.
      apply find_snoc_fresh; [exact Hfresh|apply String.eqb_refl].
Qed.

Lemma addOption_registers_witness :
  InputDefinition.hasOption fileDefinition
    (Name (InputOption.name (plainOption "force" ["f"; "F"]))) = false
  /\ Forall (fun s =>
               Forall (fun o' => Str.includes s (InputOption.shortcuts o') = false)
                 (InputDefinition.options fileDefinition))
       (InputOption.shortcuts (plainOption "force" ["f"; "F"]))
  /\ exists d',
       InputDefinition.addOption (plainOption "force" ["f"; "F"]) fileDefinition = (inr tt, d')
       /\ InputDefinition.options d'
          = (InputDefinition.options fileDefinition ++ [plainOption "force" ["f"; "F"]])%list
       /\ InputDefinition.arguments d' = InputDefinition.arguments fileDefinition
       /\ InputDefinition.hasOption d'
            (Name (InputOption.name (plainOption "force" ["f"; "F"]))) = true
       /\ InputDefinition.option_ d' (Name (InputOption.name (plainOption "force" ["f"; "F"])))
          = Some (plainOption "force" ["f"; "F"]).
Proof.
  split; [reflexivity|].
  split; [apply (bool_decide_unpack _); vm_compute; reflexivity|].
  apply (addOption_registers fileDefinition (plainOption "force" ["f"; "F"])).
  - reflexivity.
  - apply (bool_decide_unpack _); vm_compute; reflexivity.
Defined.

(** X3: [addArgument] keeps the names of the registered arguments pairwise
    distinct, whether it returns or throws. *)
Theorem addArgument_keeps_names_distinct (d : InputDefinition.t) (a : InputArgument.t) :
  NoDup (map InputArgument.name (InputDefinition.arguments d)) ->
  NoDup (map InputArgument.name
           (InputDefinition.arguments (snd (InputDefinition.addArgument a d)))).
Proof.
  intros Hnodup.
  destruct (addArgument_cases d a) as [[_ ->]|[Hfresh ->]]; simpl; [exact Hnodup|].
  apply names_snoc; assumption.
Qed.

Lemma addArgument_keeps_names_distinct_witness :
  NoDup (map InputArgument.name (InputDefinition.arguments copyDefinition))
  /\ NoDup (map InputArgument.name
              (InputDefinition.arguments
                 (snd (InputDefinition.addArgument (plainArgument "mode") copyDefinition)))).
Proof.
  split; [apply (bool_decide_unpack _); vm_compute; reflexivity|].
  apply (addArgument_keeps_names_distinct copyDefinition (plainArgument "mode")).
  apply (bool_decide_unpack _); vm_compute; reflexivity.
Defined.

(** X4: [addOption] keeps the names of the registered options pairwise
    distinct, whether it returns or throws. *)
Theorem addOption_keeps_names_distinct (d : InputDefinition.t) (o : InputOption.t) :
  NoDup (map InputOption.name (InputDefinition.options d)) ->
  NoDup (map InputOption.name
           (InputDefinition.options (snd (InputDefinition.addOption o d)))).
Proof.
  intros Hnodup.
  destruct (addOption_cases d o)
    as [[_ ->]|[(_ & s & o' & _ & _ & _ & ->)|(Hfresh & _ & ->)]];
    simpl; try exact Hnodup.
  apply names_snoc; assumption.
Qed.

Lemma addOption_keeps_names_distinct_witness :
  NoDup (map InputOption.name (InputDefinition.options versionDefinition))
  /\ NoDup (map InputOption.name
              (InputDefinition.options
                 (snd (InputDefinition.addOption (plainOption "force" ["f"]) versionDefinition)))).
Proof.
  split; [apply (bool_decide_unpack _); vm_compute; reflexivity|].
  apply (addOption_keeps_names_distinct versionDefinition (plainOption "force" ["f"])).
  apply (bool_decide_unpack _); vm_compute; reflexivity.
Defined.

(** X5: [addOption] is all or nothing.  Either it returns and the
    definition is the old one with the option appended, or it throws and the
    definition is exactly the old one; the error is then the duplicate-option
    error for the new option's name, or the duplicate-shortcut error for one
    of the new option's shortcuts and the name of a registered option.  The
    arguments are never touched. *)
Theorem addOption_all_or_nothing (d : InputDefinition.t) (o : InputOption.t) :
  InputDefinition.addOption o d
  = (inr tt,
     {| InputDefinition.options := (InputDefinition.options d ++ [o])%list;
        InputDefinition.arguments := InputDefinition.arguments d |})
  \/ InputDefinition.addOption o d
     = (inl (DuplicateOptionError (InputOption.name o)), d)
  \/ exists s o',
       s ∈ InputOption.shortcuts o /\ o' ∈ InputDefinition.options d
       /\ InputDefinition.addOption o d
          = (inl (DuplicateShortcutError s (InputOption.name o')), d).
Proof.
  destruct (addOption_cases d o)
    as [[_ H]|[(_ & s & o' & Hs & Ho' & _ & H)|(_ & _ & H)]].
  - right. left. exact H.
  - right. right. exists s, o'. auto.
  - left. exact H.
Qed.

(** X6: [addOption] keeps the shortcuts of different options apart: if no
    two registered options share a shortcut before the call, none do after
    it, whether it returns or throws. *)
Theorem addOption_keeps_shortcuts_apart (d : InputDefinition.t) (o : InputOption.t) :
  UniqueShortcuts d -> UniqueShortcuts (snd (InputDefinition.addOption o d)).
Proof.
  intros Huniq.
  destruct (InputDefinition.addOption o d) as [[e|[]] d'] eqn:Hrun; simpl.
  - destruct (addOption_cases d o)
      as [[_ H]|[(_ & s & o' & _ & _ & _ & H)|(_ & _ & H)]];
      rewrite H in Hrun; [| |discriminate]; now injection Hrun as _ <-.
  - eapply addOption_UniqueShortcuts; eauto.
Qed.

Lemma addOption_keeps_shortcuts_apart_witness :
  UniqueShortcuts versionDefinition
  /\ UniqueShortcuts
       (snd (InputDefinition.addOption (plainOption "force" ["f"]) versionDefinition)).
Proof.
  split; [exact UniqueShortcuts_versionDefinition|].
  apply (addOption_keeps_shortcuts_apart versionDefinition (plainOption "force" ["f"])).
  exact UniqueShortcuts_versionDefinition.
Defined.

(** X7: asked with an integer, [hasArgument] and [hasOption] answer whether
    it is a position of the registered arguments, respectively options:
    true exactly from 0 up to the count minus one, false for a negative
    integer and from the count on. *)
Theorem has_by_index_bounds (d : InputDefinition.t) (i : Z) :
  (InputDefinition.hasArgument d (Index i) = true
   <-> 0 <= i < Z.of_nat (length (InputDefinition.arguments d)))
  /\ (InputDefinition.hasOption d (Index i) = true
      <-> 0 <= i < Z.of_nat (length (InputDefinition.options d))).
Proof.
  assert (H : forall (A : Type) (l : list A),
             truthy (at_index l i) = true <-> 0 <= i < Z.of_nat (length l)).
  { intros A l. unfold at_index. destruct (Z.ltb_spec i 0) as [Hneg|Hpos].
    - simpl. split; [discriminate|lia].
    - destruct (l !! Z.to_nat i) as [x|] eqn:E; simpl.
      + apply lookup_lt_Some in E. split; [lia|reflexivity].
      + apply lookup_ge_None in E. split; [discriminate|lia]. }
  split; apply H.
Qed.

(** * Further properties of binding *)

Section ClosedForm.

Implicit Types (this : ArgvInput.t) (d : InputDefinition.t).

Lemma withMaps_same this :
  withMaps (ArgvInput.arguments this) (ArgvInput.options this) this = this.
Proof. destruct this as [[d a o] args p]. reflexivity. Qed.

Lemma withArgument_withMaps key v a o this :
  withArgument key v (withMaps a o this) = withMaps (<[key := v]> a) o this.
Proof. reflexivity. Qed.

Lemma withOption_withMaps key v a o this :
  withOption key v (withMaps a o this) = withMaps a (<[key := v]> o) this.
Proof. reflexivity. Qed.

Lemma definition_withMaps a o this :
  ArgvInput.definition (withMaps a o this) = ArgvInput.definition this.
Proof. reflexivity. Qed.

(** The positional loop on an input whose maps are [a] and [o]. *)
Lemma forEachFrom_closed this (o : gmap (option string) value) (args : list string) :
  forall (index : nat) (a : gmap (option string) string),
    forEachFrom index ArgvInput.assignArgument args (withMaps a o this)
    = (positionalOutcome (ArgvInput.definition this) index args,
       withMaps (writeAll a (storedArguments (ArgvInput.definition this) index args)) o this).
Proof.
  induction args as [|token args IH]; intros index a.
  - unfold positionalOutcome, storedArguments. rewrite take_nil. reflexivity.
  - cbn [forEachFrom].
    destruct (decide (index < length (InputDefinition.arguments (ArgvInput.definition this)))%nat)
      as [Hlt|Hge].
    + erewrite bind_returned by (apply assignArgument_within; exact Hlt).
      rewrite withArgument_withMaps, IH.
      unfold positionalOutcome, storedArguments. cbn [length].
      replace (length (InputDefinition.arguments (ArgvInput.definition this)) - index)%nat
        with (S (length (InputDefinition.arguments (ArgvInput.definition this)) - S index))
        by lia.
      reflexivity.
    + unfold positionalOutcome, storedArguments.
      replace (length (InputDefinition.arguments (ArgvInput.definition this)) - index)%nat
        with 0%nat by lia.
      cbn [length Nat.leb take map writeAll foldl].
      destruct (InputDefinition.arguments (ArgvInput.definition this)) eqn:E.
      * erewrite bind_thrown
          by (apply assignArgument_none_declared; rewrite definition_withMaps; exact E).
        reflexivity.
      * erewrite bind_thrown
          by (apply assignArgument_beyond; rewrite definition_withMaps, E;
              [simpl in *; lia|discriminate]).
        unfold InputDefinition.argumentNames, SetOf.toArray.
        rewrite definition_withMaps, E. reflexivity.
Qed.

Lemma assignOption_closed this (a : gmap (option string) string)
    (o : gmap (option string) value) (key : string) (v : value) :
  ArgvInput.assignOption (key, v) (withMaps a o this)
  = match resolve (ArgvInput.definition this) key with
    | Some target => (inr tt, withMaps a (<[target := v]> o) this)
    | None => (inl (UnexpectedOptionError key), withMaps a o this)
    end.
Proof.
  unfold ArgvInput.assignOption, resolve, bind, gets. rewrite definition_withMaps.
  destruct (InputDefinition.hasOptionShortcut _ key); [reflexivity|].
  destruct (InputDefinition.hasOption _ (Name key)); reflexivity.
Qed.

(** The option loop on an input whose maps are [a] and [o]. *)
Lemma forEach_closed this (a : gmap (option string) string)
    (entries : list (string * value)) :
  forall o : gmap (option string) value,
    forEach ArgvInput.assignOption entries (withMaps a o this)
    = (optionsOutcome (ArgvInput.definition this) entries,
       withMaps a (writeAll o (storedOptions (ArgvInput.definition this) entries)) this).
Proof.
  induction entries as [|[key v] entries IH]; intros o; [reflexivity|].
  cbn [forEach storedOptions optionsOutcome].
  pose proof (assignOption_closed this a o key v) as Hstep.
  destruct (resolve (ArgvInput.definition this) key) as [target|].
  - erewrite bind_returned by exact Hstep. apply IH.
  - erewrite bind_thrown by exact Hstep. reflexivity.
Qed.

(** Binding in closed form: the positional writes, then, if the positional
    loop returned, the option writes. *)
Lemma assignParsedInput_closed this :
  ArgvInput.assignParsedInput this
  = match positionalOutcome (ArgvInput.definition this) 0
            (ArgvInput.slice1 (ArgvInput.positional (ArgvInput.parsed this))) with
    | inl e =>
        (inl e,
         withMaps
           (writeAll (ArgvInput.arguments this)
              (storedArguments (ArgvInput.definition this) 0
                 (ArgvInput.slice1 (ArgvInput.positional (ArgvInput.parsed this)))))
           (ArgvInput.options this) this)
    | inr _ =>
        (optionsOutcome (ArgvInput.definition this) (ArgvInput.named (ArgvInput.parsed this)),
         withMaps
           (writeAll (ArgvInput.arguments this)
              (storedArguments (ArgvInput.definition this) 0
                 (ArgvInput.slice1 (ArgvInput.positional (ArgvInput.parsed this)))))
           (writeAll (ArgvInput.options this)
              (storedOptions (ArgvInput.definition this)
                 (ArgvInput.named (ArgvInput.parsed this))))
           this)
    end.
Proof.
  pose proof (forEachFrom_closed this (ArgvInput.options this)
                (ArgvInput.slice1 (ArgvInput.positional (ArgvInput.parsed this)))
                0%nat (ArgvInput.arguments this)) as Hpositional.
  rewrite withMaps_same in Hpositional.
  unfold ArgvInput.assignParsedInput.
  change (bind (gets ArgvInput.parsed) ?k this) with (k (ArgvInput.parsed this) this).
  cbv beta. unfold ArgvInput.assignArgumentsFrom, forEachIndexed.
  destruct (positionalOutcome _ _ _) as [e|[]].
  - erewrite bind_thrown by exact Hpositional. reflexivity.
  - erewrite bind_returned by exact Hpositional. apply forEach_closed.
Qed.

Lemma writeAll_snoc {V : Type} (m : gmap (option string) V) l (k : option string) (v : V) :
  writeAll m (l ++ [(k, v)])%list = <[k := v]> (writeAll m l).
Proof. unfold writeAll. now rewrite foldl_app. Qed.

Lemma writeAll_cons {V : Type} (m : gmap (option string) V) l (k : option string) (v : V) :
  writeAll m ((k, v) :: l) = writeAll (<[k := v]> m) l.
Proof. reflexivity. Qed.

Lemma writeAll_absorbs {V : Type} (l : list (option string * V)) :
  forall (m : gmap (option string) V) (k : option string) (v v' : V),
    <[k := v]> (writeAll (<[k := v']> m) l) = <[k := v]> (writeAll m l).
Proof.
  induction l as [|[k1 v1] l IH]; intros m k v v'.
  - apply insert_insert_eq.
  - rewrite !writeAll_cons. destruct (decide (k1 = k)) as [->|Hne].
    + now rewrite insert_insert_eq.
    + rewrite (insert_insert_ne m k1 k) by exact Hne. apply IH.
Qed.

(** Writing the same entries a second time changes nothing. *)
Lemma writeAll_twice {V : Type} (l : list (option string * V)) (m : gmap (option string) V) :
  writeAll (writeAll m l) l = writeAll m l.
Proof.
  induction l as [|[k v] l IH] using rev_ind; [reflexivity|].
  rewrite !writeAll_snoc, writeAll_absorbs. now rewrite IH.
Qed.

End ClosedForm.

Lemma writeAll_lookup_other {V : Type} (l : list (option string * V)) (k : option string) :
  forall m : gmap (option string) V,
    Forall (fun entry => entry.1 <> k) l -> writeAll m l !! k = m !! k.
Proof.
  induction l as [|[k1 v1] l IH]; intros m Hall; [reflexivity|].
  rewrite writeAll_cons. apply Forall_cons in Hall as [Hne Hall].
  rewrite IH by exact Hall. now apply lookup_insert_ne.
Qed.

Lemma resolve_recognised (d : InputDefinition.t) (key : string) :
  recognised d key = true <-> exists target, resolve d key = Some target.
Proof.
  unfold recognised, resolve.
  destruct (InputDefinition.hasOptionShortcut d key); cbn [orb].
  - split; [eauto|reflexivity].
  - destruct (InputDefinition.hasOption d (Name key)).
    + split; [eauto|reflexivity].
    + split; [discriminate|]. intros [target H]. discriminate H.
Qed.

Lemma assignArgumentsFrom_closed (this : ArgvInput.t) (args : list string) :
  ArgvInput.assignArgumentsFrom args this
  = (positionalOutcome (ArgvInput.definition this) 0 args,
     withMaps
       (writeAll (ArgvInput.arguments this)
          (storedArguments (ArgvInput.definition this) 0 args))
       (ArgvInput.options this) this).
Proof.
  unfold ArgvInput.assignArgumentsFrom, forEachIndexed.
  rewrite <- (withMaps_same this) at 1. apply forEachFrom_closed.
Qed.

Lemma assignOptionsFrom_closed (this : ArgvInput.t) (entries : list (string * value)) :
  ArgvInput.assignOptionsFrom entries this
  = (optionsOutcome (ArgvInput.definition this) entries,
     withMaps (ArgvInput.arguments this)
       (writeAll (ArgvInput.options this)
          (storedOptions (ArgvInput.definition this) entries))
       this).
Proof.
  unfold ArgvInput.assignOptionsFrom.
  rewrite <- (withMaps_same this) at 1. apply forEach_closed.
Qed.

(** X8: binding is idempotent.  Binding the parsed tokens again on the input
    a first binding left behind completes the same way and leaves the same
    input, bound maps included, whether the binding returns or throws. *)
Theorem assignParsedInput_idempotent (this : ArgvInput.t) :
  ArgvInput.assignParsedInput (snd (ArgvInput.assignParsedInput this))
  = ArgvInput.assignParsedInput this.
Proof.
  rewrite (assignParsedInput_closed this).
  destruct (positionalOutcome _ _ _) as [e|[]] eqn:Hpositional; cbn [snd];
    rewrite assignParsedInput_closed; cbn [ArgvInput.definition ArgvInput.parsed
      ArgvInput.arguments ArgvInput.options ArgvInput.input withMaps
      Input.definition Input.arguments Input.options];
    fold (ArgvInput.definition this); rewrite Hpositional;
    unfold withMaps; cbn [ArgvInput.definition ArgvInput.parsed ArgvInput.args
      ArgvInput.input Input.definition]; fold (ArgvInput.definition this);
    rewrite ?writeAll_twice; reflexivity.
Qed.

(** X9: the positional loop never binds a token under a name: whatever the
    definition and the tokens, and whether the loop returns or throws, every
    name has after it the binding it had before.  The tokens that fall on
    declared positions are all written under the key [undefined], so that
    key ends up holding the last of them. *)
Theorem assignArgumentsFrom_never_binds_a_name
    (this : ArgvInput.t) (args : list string) (name : string) :
  ArgvInput.arguments (snd (ArgvInput.assignArgumentsFrom args this)) !! Some name
  = ArgvInput.arguments this !! Some name
  /\ ArgvInput.arguments (snd (ArgvInput.assignArgumentsFrom args this)) !! undefined
     = match last (take (length (InputDefinition.arguments (ArgvInput.definition this))) args) with
       | Some token => Some token
       | None => ArgvInput.arguments this !! undefined
       end.
Proof.
  rewrite assignArgumentsFrom_closed. cbn [snd]. unfold ArgvInput.arguments at 1 3.
  cbn [withMaps ArgvInput.input Input.arguments]. unfold storedArguments.
  rewrite Nat.sub_0_r.
  generalize (take (length (InputDefinition.arguments (ArgvInput.definition this))) args).
  intros stored. split.
  - apply writeAll_lookup_other. apply Forall_forall.
    intros entry Hin. apply list_elem_of_fmap in Hin as (token & -> & _). discriminate.
  - induction stored as [|token stored _] using rev_ind; [reflexivity|].
    rewrite map_app. cbn [map]. rewrite writeAll_snoc, last_snoc.
    apply lookup_insert_eq.
Qed.

(** X10: binding changes nothing but the two bound maps: after
    [assignParsedInput] the definition, the raw arguments and the parsed
    tokens are what they were; [assignArgumentsFrom] leaves the bound options
    alone and [assignOptionsFrom] the bound arguments; all of it whether the
    call returns or throws. *)
Theorem binding_touches_only_its_map
    (this : ArgvInput.t) (args : list string) (entries : list (string * value)) :
  (ArgvInput.definition (snd (ArgvInput.assignParsedInput this)) = ArgvInput.definition this
   /\ ArgvInput.args (snd (ArgvInput.assignParsedInput this)) = ArgvInput.args this
   /\ ArgvInput.parsed (snd (ArgvInput.assignParsedInput this)) = ArgvInput.parsed this)
  /\ ArgvInput.options (snd (ArgvInput.assignArgumentsFrom args this))
     = ArgvInput.options this
  /\ ArgvInput.arguments (snd (ArgvInput.assignOptionsFrom entries this))
     = ArgvInput.arguments this.
Proof.
  rewrite assignParsedInput_closed, assignArgumentsFrom_closed, assignOptionsFrom_closed.
  split; [|split; reflexivity].
  destruct (positionalOutcome _ _ _) as [e|[]]; repeat split; reflexivity.
Qed.

(** X11: when the positional tokens make binding throw, no option token is
    looked at: [assignParsedInput] throws that same error and the bound
    options are what they were, even if the option tokens are all valid. *)
Theorem positional_error_stops_binding (this : ArgvInput.t) (e : Error) :
  fst (ArgvInput.assignArgumentsFrom
         (ArgvInput.slice1 (ArgvInput.positional (ArgvInput.parsed this))) this)
  = inl e ->
  fst (ArgvInput.assignParsedInput this) = inl e
  /\ ArgvInput.options (snd (ArgvInput.assignParsedInput this)) = ArgvInput.options this.
Proof.
  rewrite assignArgumentsFrom_closed, assignParsedInput_closed. cbn [fst].
  intros ->. split; reflexivity.
Qed.

Lemma positional_error_stops_binding_witness :
  fst (ArgvInput.assignArgumentsFrom
         (ArgvInput.slice1
            (ArgvInput.positional
               (ArgvInput.parsed
                  (ArgvInput.mk (Input.new versionDefinition) [] runFile))))
         (ArgvInput.mk (Input.new versionDefinition) [] runFile))
  = inl NoArgumentsExpectedError
  /\ fst (ArgvInput.assignParsedInput (ArgvInput.mk (Input.new versionDefinition) [] runFile))
     = inl NoArgumentsExpectedError
  /\ ArgvInput.options
       (snd (ArgvInput.assignParsedInput
               (ArgvInput.mk (Input.new versionDefinition) [] runFile)))
     = ArgvInput.options (ArgvInput.mk (Input.new versionDefinition) [] runFile).
Proof.
  split; [reflexivity|].
  apply (positional_error_stops_binding
           (ArgvInput.mk (Input.new versionDefinition) [] runFile)
           NoArgumentsExpectedError).
  reflexivity.
Defined.

(** X12: the first positional token is the command name and is never bound:
    with at most one positional token and no option token, binding returns
    and leaves the input exactly as it was, even for a definition that
    declares no argument. *)
Theorem bare_command_binds_nothing (this : ArgvInput.t) :
  (length (ArgvInput.positional (ArgvInput.parsed this)) <= 1)%nat ->
  ArgvInput.named (ArgvInput.parsed this) = [] ->
  ArgvInput.assignParsedInput this = (inr tt, this).
Proof.
  intros Hshort Hnone. unfold ArgvInput.assignParsedInput.
  change (bind (gets ArgvInput.parsed) ?k this) with (k (ArgvInput.parsed this) this).
  cbv beta. rewrite Hnone.
  assert (Hrest : ArgvInput.slice1 (ArgvInput.positional (ArgvInput.parsed this)) = []).
  { unfold ArgvInput.slice1.
    destruct (ArgvInput.positional (ArgvInput.parsed this)) as [|command [|token rest]];
      simpl in *; [reflexivity|reflexivity|lia]. }
  rewrite Hrest. reflexivity.
Qed.

Lemma bare_command_binds_nothing_witness :
  (length (ArgvInput.positional
             (ArgvInput.parsed
                (ArgvInput.mk (Input.new versionDefinition) ["run"]
                   (ArgvInput.mkParsed ["run"] [])))) <= 1)%nat
  /\ ArgvInput.named
       (ArgvInput.parsed
          (ArgvInput.mk (Input.new versionDefinition) ["run"] (ArgvInput.mkParsed ["run"] [])))
     = []
  /\ ArgvInput.assignParsedInput
       (ArgvInput.mk (Input.new versionDefinition) ["run"] (ArgvInput.mkParsed ["run"] []))
     = (inr tt,
        ArgvInput.mk (Input.new versionDefinition) ["run"] (ArgvInput.mkParsed ["run"] [])).
Proof.
  split; [simpl; lia|]. split; [reflexivity|].
  apply (bare_command_binds_nothing
           (ArgvInput.mk (Input.new versionDefinition) ["run"] (ArgvInput.mkParsed ["run"] []))).
  - simpl; lia.
  - reflexivity.
Defined.

Lemma optionsOutcome_returns (d : InputDefinition.t) (entries : list (string * value)) :
  optionsOutcome d entries = inr tt
  <-> forallb (fun entry => recognised d entry.1) entries = true.
Proof.
  induction entries as [|[key v] entries IH]; cbn [optionsOutcome forallb fst].
  - split; reflexivity.
  - destruct (resolve d key) as [target|] eqn:Hresolve.
    + assert (Hrec : recognised d key = true) by (apply resolve_recognised; eauto).
      rewrite Hrec. exact IH.
    + assert (Hrec : recognised d key = false).
      { destruct (recognised d key) eqn:E; [|reflexivity].
        apply resolve_recognised in E as [target E]. congruence. }
      rewrite Hrec. split; discriminate.
Qed.

(** X13: the option loop returns exactly when every key among the entries is
    a registered shortcut or a registered name; otherwise it throws. *)
Theorem assignOptionsFrom_returns_iff_recognised
    (this : ArgvInput.t) (entries : list (string * value)) :
  fst (ArgvInput.assignOptionsFrom entries this) = inr tt
  <-> forallb (fun entry => recognised (ArgvInput.definition this) entry.1) entries = true.
Proof. rewrite assignOptionsFrom_closed. apply optionsOutcome_returns. Qed.

(** X14: an unknown key does not undo what the loop did before reaching it:
    the input left behind by the throw is the input left behind by binding
    the entries that precede the unknown key, and the entries after it are
    never bound. *)
Theorem unknown_option_keeps_earlier_bindings
    (this : ArgvInput.t) (before after : list (string * value))
    (key : string) (v : value) :
  forallb (fun entry => recognised (ArgvInput.definition this) entry.1) before = true ->
  recognised (ArgvInput.definition this) key = false ->
  snd (ArgvInput.assignOptionsFrom (before ++ (key, v) :: after)%list this)
  = snd (ArgvInput.assignOptionsFrom before this).
Proof.
  intros Hbefore Hkey. unfold ArgvInput.assignOptionsFrom. rewrite forEach_app.
  destruct (forEach_assignOption_recognised before this Hbefore) as (this' & -> & Hdef).
  cbn [forEach snd]. erewrite bind_thrown; [reflexivity|].
  apply orb_false_elim in Hkey as [Hshortcut Hname].
  apply assignOption_unknown; rewrite Hdef; assumption.
Qed.

Lemma unknown_option_keeps_earlier_bindings_witness :
  forallb (fun entry => recognised (ArgvInput.definition (ArgvInput.new fileDefinition [])) entry.1)
    [("v", VBoolean true)] = true
  /\ recognised (ArgvInput.definition (ArgvInput.new fileDefinition [])) "force" = false
  /\ snd (ArgvInput.assignOptionsFrom
            ([("v", VBoolean true)] ++ ("force", VBoolean true) :: [("verbose", VBoolean false)])%list
            (ArgvInput.new fileDefinition []))
     = snd (ArgvInput.assignOptionsFrom [("v", VBoolean true)] (ArgvInput.new fileDefinition [])).
Proof.
  split; [reflexivity|]. split; [reflexivity|].
  apply (unknown_option_keeps_earlier_bindings (ArgvInput.new fileDefinition [])
           [("v", VBoolean true)] [("verbose", VBoolean false)] "force" (VBoolean true));
    reflexivity.
Defined.

(** X15: the entry processed last decides.  In a definition where no two
    options share a shortcut, when the entries before it all resolve, a
    token keyed by a shortcut of a registered option leaves its value bound
    under the option's name, whatever an earlier entry (keyed by the name or
    by a shortcut) had bound there. *)
Theorem last_option_entry_wins
    (this : ArgvInput.t) (before : list (string * value))
    (o : InputOption.t) (s : string) (v : value) :
  UniqueShortcuts (ArgvInput.definition this) ->
  o ∈ InputDefinition.options (ArgvInput.definition this) ->
  s ∈ InputOption.shortcuts o ->
  forallb (fun entry => recognised (ArgvInput.definition this) entry.1) before = true ->
  fst (ArgvInput.assignOptionsFrom (before ++ [(s, v)])%list this) = inr tt
  /\ ArgvInput.options (snd (ArgvInput.assignOptionsFrom (before ++ [(s, v)])%list this))
     !! Some (InputOption.name o) = Some v.
Proof.
  intros Huniq Hin Hs Hbefore. unfold ArgvInput.assignOptionsFrom. rewrite forEach_app.
  destruct (forEach_assignOption_recognised before this Hbefore) as (this' & -> & Hdef).
  cbn [forEach].
  erewrite bind_returned
    by (apply (assignOption_by_shortcut this' s v o); rewrite Hdef;
        now apply optionByShortcut_owner).
  split; [reflexivity|]. cbn [snd ret]. unfold ArgvInput.options. cbn.
  apply lookup_insert_eq.
Qed.

Lemma last_option_entry_wins_witness :
  UniqueShortcuts (ArgvInput.definition (ArgvInput.new versionDefinition []))
  /\ plainOption "verbose" ["v"]
     ∈ InputDefinition.options (ArgvInput.definition (ArgvInput.new versionDefinition []))
  /\ "v" ∈ InputOption.shortcuts (plainOption "verbose" ["v"])
  /\ forallb (fun entry =>
                recognised (ArgvInput.definition (ArgvInput.new versionDefinition [])) entry.1)
       [("verbose", VBoolean false)] = true
  /\ fst (ArgvInput.assignOptionsFrom
            ([("verbose", VBoolean false)] ++ [("v", VBoolean true)])%list
            (ArgvInput.new versionDefinition [])) = inr tt
  /\ ArgvInput.options
       (snd (ArgvInput.assignOptionsFrom
               ([("verbose", VBoolean false)] ++ [("v", VBoolean true)])%list
               (ArgvInput.new versionDefinition [])))
     !! Some (InputOption.name (plainOption "verbose" ["v"])) = Some (VBoolean true).
Proof.
  split; [exact UniqueShortcuts_versionDefinition|].
  split; [apply list_elem_of_further, list_elem_of_here|].
  split; [apply list_elem_of_here|].
  split; [reflexivity|].
  apply (last_option_entry_wins (ArgvInput.new versionDefinition [])
           [("verbose", VBoolean false)] (plainOption "verbose" ["v"]) "v" (VBoolean true)).
  - exact UniqueShortcuts_versionDefinition.
  - apply list_elem_of_further, list_elem_of_here.
  - apply list_elem_of_here.
  - reflexivity.
Defined.

(** X16: [parse] stores what the tokenizer makes of the raw arguments before
    it binds, and binding does not touch it: after [parse], returned or
    thrown, the parsed tokens are the tokenizer's output for the raw
    arguments, the raw arguments and the definition are what they were, and
    [firstArgument] is the first positional token of that output, or the
    empty string when it has none. *)
Theorem parse_keeps_tokens
    (minimist : list string -> ArgvInput.ParsedArgs) (this : ArgvInput.t) :
  ArgvInput.parsed (snd (ArgvInput.parse minimist this)) = minimist (ArgvInput.args this)
  /\ ArgvInput.args (snd (ArgvInput.parse minimist this)) = ArgvInput.args this
  /\ ArgvInput.definition (snd (ArgvInput.parse minimist this)) = ArgvInput.definition this
  /\ ArgvInput.firstArgument (snd (ArgvInput.parse minimist this))
     = match ArgvInput.positional (minimist (ArgvInput.args this)) with
       | [] => EmptyString
       | command :: _ => command
       end.
Proof.
  assert (Hparsed : ArgvInput.parse minimist this
                    = ArgvInput.assignParsedInput
                        {| ArgvInput.input := ArgvInput.input this;
                           ArgvInput.args := ArgvInput.args this;
                           ArgvInput.parsed := minimist (ArgvInput.args this) |})
    by reflexivity.
  rewrite Hparsed, assignParsedInput_closed.
  destruct (positionalOutcome _ _ _) as [e|[]]; cbn [snd];
    (split; [reflexivity|]); (split; [reflexivity|]); (split; [reflexivity|]);
    unfold ArgvInput.firstArgument; cbn [withMaps ArgvInput.parsed];
    destruct (ArgvInput.positional (minimist (ArgvInput.args this))); reflexivity.
Qed.

(** * Properties of [Command] *)

Section CommandProperties.

Variable Application : Type.
Variable newInputArgument : string -> InputArgument.t.
Variable newInputOption : string -> InputOption.t.

Implicit Types (this : Command.t Application) (name : string).

Lemma withDefinition_same this :
  Command.withDefinition Application (Command.definition Application this) this = this.
Proof. destruct this as [cn [n descr app d]]. reflexivity. Qed.

Lemma falsy_empty name : Command.falsy name = true <-> name = EmptyString.
Proof. destruct name; simpl; split; congruence. Qed.

Lemma falsy_nonempty name : name <> EmptyString -> Command.falsy name = false.
Proof. destruct name; simpl; congruence. Qed.

End CommandProperties.

(** X17: [Command.addArgument] with a non-empty name that is not registered
    yet returns the argument it constructed and appends it to the command's
    definition, where [hasArgument] then finds the name; the command keeps
    its name; and the same call made again throws the definition's
    duplicate-argument error and leaves the command as the first call left
    it.  (The constructor is taken to give the argument the name it is
    handed.) *)
Theorem Command_addArgument_once
    (Application : Type) (newInputArgument : string -> InputArgument.t)
    (this : Command.t Application) (name : string) :
  InputArgument.name (newInputArgument name) = name ->
  name <> EmptyString ->
  InputDefinition.hasArgument (Command.definition Application this) (Name name) = false ->
  exists this',
    Command.addArgument Application newInputArgument name this
    = (inr (newInputArgument name), this')
    /\ InputDefinition.arguments (Command.definition Application this')
       = (InputDefinition.arguments (Command.definition Application this)
            ++ [newInputArgument name])%list
    /\ InputDefinition.hasArgument (Command.definition Application this') (Name name) = true
    /\ Command.getName Application this' = Command.getName Application this
    /\ Command.addArgument Application newInputArgument name this'
       = (inl (Command.FromDefinition (DuplicateArgumentError name)), this').
Proof.
  intros Hctor Hname Hfresh.
  destruct (addArgument_registers (Command.definition Application this)
              (newInputArgument name)) as (d' & Hrun & Hargs & _ & Hhas & _ & _).
  { now rewrite Hctor. }
  rewrite Hctor in Hhas.
  exists (Command.withDefinition Application d' this).
  unfold Command.addArgument. rewrite (falsy_nonempty name Hname), Hrun.
  split; [reflexivity|]. split; [exact Hargs|]. split; [exact Hhas|].
  split; [reflexivity|].
  change (Command.definition Application (Command.withDefinition Application d' this))
    with d'.
  assert (Hdup : InputDefinition.addArgument (newInputArgument name) d'
                 = (inl (DuplicateArgumentError name), d')).
  { destruct (addArgument_cases d' (newInputArgument name)) as [[_ H]|[H _]];
      rewrite Hctor in *; [exact H|congruence]. }
  rewrite Hdup. reflexivity.
Qed.

Lemma Command_addArgument_once_witness :
  InputArgument.name (plainArgument "file") = "file"
  /\ "file" <> EmptyString
  /\ InputDefinition.hasArgument
       (Command.definition unit (Command.new unit "Copy" (Some "copy"))) (Name "file") = false
  /\ exists this',
       Command.addArgument unit plainArgument "file" (Command.new unit "Copy" (Some "copy"))
       = (inr (plainArgument "file"), this')
       /\ InputDefinition.arguments (Command.definition unit this')
          = (InputDefinition.arguments
               (Command.definition unit (Command.new unit "Copy" (Some "copy")))
               ++ [plainArgument "file"])%list
       /\ InputDefinition.hasArgument (Command.definition unit this') (Name "file") = true
       /\ Command.getName unit this'
          = Command.getName unit (Command.new unit "Copy" (Some "copy"))
       /\ Command.addArgument unit plainArgument "file" this'
          = (inl (Command.FromDefinition (DuplicateArgumentError "file")), this').
Proof.
  split; [reflexivity|]. split; [discriminate|]. split; [reflexivity|].
  apply (Command_addArgument_once unit plainArgument
           (Command.new unit "Copy" (Some "copy")) "file").
  - reflexivity.
  - discriminate.
  - reflexivity.
Defined.

(** X18: [Command.addArgument] and [Command.addOption] refuse the empty
    name before they construct or register anything: the call throws the
    missing-name error carrying the class name and the command is unchanged;
    and no other name gets that error. *)
Theorem Command_empty_name_refused
    (Application : Type) (newInputArgument : string -> InputArgument.t)
    (newInputOption : string -> InputOption.t)
    (this : Command.t Application) (name command : string) :
  Command.addArgument Application newInputArgument EmptyString this
  = (inl (Command.MissingArgumentName (Command.constructorName Application this)), this)
  /\ Command.addOption Application newInputOption EmptyString this
     = (inl (Command.MissingOptionName (Command.constructorName Application this)), this)
  /\ (fst (Command.addArgument Application newInputArgument name this)
      = inl (Command.MissingArgumentName command) <-> name = EmptyString
                                                      /\ command = Command.constructorName Application this)
  /\ (fst (Command.addOption Application newInputOption name this)
      = inl (Command.MissingOptionName command) <-> name = EmptyString
                                                    /\ command = Command.constructorName Application this).
Proof.
  split; [reflexivity|]. split; [reflexivity|].
  unfold Command.addArgument, Command.addOption. split.
  - destruct name as [|c name]; cbn [Command.falsy fst].
    + split; [intros H; injection H as <-; auto|intros [_ ->]; reflexivity].
    + split; [|intros [H _]; discriminate H].
      destruct (InputDefinition.addArgument _ _) as [[e|[]] d]; discriminate.
  - destruct name as [|c name]; cbn [Command.falsy fst].
    + split; [intros H; injection H as <-; auto|intros [_ ->]; reflexivity].
    + split; [|intros [H _]; discriminate H].
      destruct (InputDefinition.addOption _ _) as [[e|[]] d]; discriminate.
Qed.

(** X19: through [Command.addOption] the shortcut scan of the definition has
    nothing to scan.  When the constructor gives the option the name it is
    handed and no shortcut, a non-empty name is either new, and the option
    is appended to the definition, or registered, and the call throws the
    definition's duplicate-option error and leaves the command unchanged; a
    duplicate-shortcut error never comes out. *)
Theorem Command_addOption_new_or_duplicate
    (Application : Type) (newInputOption : string -> InputOption.t)
    (this : Command.t Application) (name : string) :
  InputOption.name (newInputOption name) = name ->
  InputOption.shortcuts (newInputOption name) = [] ->
  name <> EmptyString ->
  (InputDefinition.hasOption (Command.definition Application this) (Name name) = false
   /\ exists this',
        Command.addOption Application newInputOption name this
        = (inr (newInputOption name), this')
        /\ InputDefinition.options (Command.definition Application this')
           = (InputDefinition.options (Command.definition Application this)
                ++ [newInputOption name])%list
        /\ InputDefinition.hasOption (Command.definition Application this') (Name name) = true)
  \/ (InputDefinition.hasOption (Command.definition Application this) (Name name) = true
      /\ Command.addOption Application newInputOption name this
         = (inl (Command.FromDefinition (DuplicateOptionError name)), this)).
Proof.
  intros Hctor Hnone Hname. unfold Command.addOption.
  rewrite (falsy_nonempty name Hname).
  destruct (InputDefinition.hasOption (Command.definition Application this) (Name name))
    eqn:Hhas.
  - right. split; [reflexivity|].
    destruct (addOption_cases (Command.definition Application this) (newInputOption name))
      as [[_ H]|[(H & _)|(H & _)]]; rewrite Hctor in *; [|congruence|congruence].
    rewrite H. now rewrite withDefinition_same.
  - left. split; [reflexivity|].
    destruct (addOption_registers (Command.definition Application this)
                (newInputOption name)) as (d' & Hrun & Hopts & _ & Hhas' & _).
    { now rewrite Hctor. }
    { rewrite Hnone. constructor. }
    rewrite Hctor in Hhas'.
    exists (Command.withDefinition Application d' this). rewrite Hrun.
    split; [reflexivity|]. split; [exact Hopts|exact Hhas'].
Qed.

Lemma Command_addOption_new_or_duplicate_witness :
  InputOption.name (plainOption "verbose" []) = "verbose"
  /\ InputOption.shortcuts (plainOption "verbose" []) = []
  /\ "verbose" <> EmptyString
  /\ ((InputDefinition.hasOption
         (Command.definition unit (Command.new unit "Copy" None)) (Name "verbose") = false
       /\ exists this',
            Command.addOption unit (fun name => plainOption name []) "verbose"
              (Command.new unit "Copy" None)
            = (inr (plainOption "verbose" []), this')
            /\ InputDefinition.options (Command.definition unit this')
               = (InputDefinition.options
                    (Command.definition unit (Command.new unit "Copy" None))
                    ++ [plainOption "verbose" []])%list
            /\ InputDefinition.hasOption (Command.definition unit this') (Name "verbose")
               = true)
      \/ (InputDefinition.hasOption
            (Command.definition unit (Command.new unit "Copy" None)) (Name "verbose") = true
          /\ Command.addOption unit (fun name => plainOption name []) "verbose"
               (Command.new unit "Copy" None)
             = (inl (Command.FromDefinition (DuplicateOptionError "verbose")),
                Command.new unit "Copy" None))).
Proof.
  split; [reflexivity|]. split; [reflexivity|]. split; [discriminate|].
  apply (Command_addOption_new_or_duplicate unit (fun name => plainOption name [])
           (Command.new unit "Copy" None) "verbose").
  - reflexivity.
  - reflexivity.
  - discriminate.
Defined.

(** X20: a new command is named after the name it is given, or after its
    class when it is given none, has the empty description, an empty
    definition, and no application: [application] throws until
    [setApplication] stored one, and then returns the one stored last;
    storing it changes neither the name, the description nor the
    definition. *)
Theorem Command_application_guard
    (Application : Type) (constructorName : string) (name : option string)
    (this : Command.t Application) (first second : Application) :
  Command.getName Application (Command.new Application constructorName name)
  = match name with Some n => n | None => constructorName end
  /\ Command.getDescription Application (Command.new Application constructorName name)
     = EmptyString
  /\ Command.definition Application (Command.new Application constructorName name)
     = InputDefinition.new
  /\ Command.application Application (Command.new Application constructorName name)
     = inl Command.MissingApplicationInstance
  /\ Command.application Application
       (Command.setApplication Application second
          (Command.setApplication Application first this))
     = inr second
  /\ Command.getName Application (Command.setApplication Application first this)
     = Command.getName Application this
  /\ Command.getDescription Application (Command.setApplication Application first this)
     = Command.getDescription Application this
  /\ Command.definition Application (Command.setApplication Application first this)
     = Command.definition Application this.
Proof. repeat split; reflexivity. Qed.

(** * Properties of [ConsoleOutput] *)

Section Lines.

Lemma split_nonempty (separator : ascii) (s : string) :
  exists piece pieces, ConsoleOutput.split separator s = piece :: pieces.
Proof.
  induction s as [|c s IH]; cbn [ConsoleOutput.split]; [eauto|].
  destruct (Ascii.eqb c separator); [eauto|].
  destruct IH as (piece & pieces & ->). eauto.
Qed.

Lemma join_cons (separator x y : string) (l : list string) :
  join separator (x :: y :: l) = x ++ separator ++ join separator (y :: l).
Proof. reflexivity. Qed.

(** Joining the pieces with the separator gives the string back. *)
Lemma join_split (separator : ascii) (s : string) :
  join (String separator EmptyString) (ConsoleOutput.split separator s) = s.
Proof.
  induction s as [|c s IH]; cbn [ConsoleOutput.split]; [reflexivity|].
  destruct (split_nonempty separator s) as (piece & pieces & Hsplit).
  rewrite Hsplit in *. destruct (Ascii.eqb_spec c separator) as [->|Hne].
  - rewrite join_cons, IH. reflexivity.
  - destruct pieces as [|piece' pieces].
    + change (join (String separator EmptyString) [piece]) with piece in IH.
      now rewrite <- IH.
    + rewrite join_cons. rewrite join_cons in IH. rewrite <- IH. reflexivity.
Qed.

(** A first line and the rest of the text. *)
Lemma split_first_line (first rest : string) :
  singleLine first = true ->
  ConsoleOutput.split ConsoleOutput.newline
    (first ++ String ConsoleOutput.newline rest)
  = first :: ConsoleOutput.split ConsoleOutput.newline rest.
Proof.
  induction first as [|c first IH]; intros Hline.
  - change (EmptyString ++ String ConsoleOutput.newline rest)
      with (String ConsoleOutput.newline rest).
    cbn [ConsoleOutput.split]. now rewrite Ascii.eqb_refl.
  - change (String c first ++ String ConsoleOutput.newline rest)
      with (String c (first ++ String ConsoleOutput.newline rest)).
    cbn [ConsoleOutput.split].
    cbn [singleLine] in Hline. apply andb_prop in Hline as [Hc Hfirst].
    apply negb_true_iff in Hc. rewrite Hc, (IH Hfirst). reflexivity.
Qed.

Lemma split_single_line (s : string) :
  singleLine s = true -> ConsoleOutput.split ConsoleOutput.newline s = [s].
Proof.
  induction s as [|c s IH]; intros Hline; cbn [ConsoleOutput.split]; [reflexivity|].
  cbn [singleLine] in Hline. apply andb_prop in Hline as [Hc Hs].
  apply negb_true_iff in Hc. rewrite Hc, (IH Hs). reflexivity.
Qed.

End Lines.

(** X21: [formatStack] drops the first line of a stack, the one that
    repeats the error's name and message, and dims each remaining line on
    its own: for a stack made of a first line, a line break and a rest, the
    result is the dimmed lines of the rest joined by line breaks.  When
    [kleur] leaves text as it is (colours disabled), the result is the rest
    itself. *)
Theorem formatStack_drops_first_line
    (kleur : list ConsoleOutput.Style -> string -> string) (first rest : string) :
  singleLine first = true ->
  ConsoleOutput.formatStack kleur (Some (first ++ String ConsoleOutput.newline rest))
  = join (String ConsoleOutput.newline EmptyString)
      (map (kleur [ConsoleOutput.dim]) (ConsoleOutput.split ConsoleOutput.newline rest))
  /\ ((forall line, kleur [ConsoleOutput.dim] line = line) ->
      ConsoleOutput.formatStack kleur (Some (first ++ String ConsoleOutput.newline rest))
      = rest).
Proof.
  intros Hline.
  assert (Hformat :
            ConsoleOutput.formatStack kleur (Some (first ++ String ConsoleOutput.newline rest))
            = join (String ConsoleOutput.newline EmptyString)
                (map (kleur [ConsoleOutput.dim])
                   (ConsoleOutput.split ConsoleOutput.newline rest))).
  { unfold ConsoleOutput.formatStack.
    rewrite (split_first_line first rest Hline).
    destruct first; reflexivity. }
  split; [exact Hformat|].
  intros Hplain. rewrite Hformat.
  rewrite (map_ext _ (fun line => line) Hplain), map_id. apply join_split.
Qed.

Lemma formatStack_drops_first_line_witness :
  singleLine "Error: boom" = true
  /\ ConsoleOutput.formatStack (fun _ text => text)
       (Some ("Error: boom" ++ String ConsoleOutput.newline "    at run (cli.js:3:9)"))
     = join (String ConsoleOutput.newline EmptyString)
         (map ((fun _ text => text) [ConsoleOutput.dim])
            (ConsoleOutput.split ConsoleOutput.newline "    at run (cli.js:3:9)"))
  /\ ((forall line, (fun (_ : list ConsoleOutput.Style) (text : string) => text)
                      [ConsoleOutput.dim] line = line) ->
      ConsoleOutput.formatStack (fun _ text => text)
        (Some ("Error: boom" ++ String ConsoleOutput.newline "    at run (cli.js:3:9)"))
      = "    at run (cli.js:3:9)").
Proof.
  split; [reflexivity|].
  apply (formatStack_drops_first_line (fun _ text => text)
           "Error: boom" "    at run (cli.js:3:9)").
  reflexivity.
Defined.

(** X22: [formatStack] gives the empty string for a stack that has no second
    line (the empty stack included), as it does for a missing stack. *)
Theorem formatStack_without_second_line
    (kleur : list ConsoleOutput.Style -> string -> string) (stack : string) :
  singleLine stack = true ->
  ConsoleOutput.formatStack kleur (Some stack) = EmptyString
  /\ ConsoleOutput.formatStack kleur None = EmptyString.
Proof.
  intros Hline. split; [|reflexivity].
  unfold ConsoleOutput.formatStack. rewrite (split_single_line stack Hline).
  destruct stack; reflexivity.
Qed.

Lemma formatStack_without_second_line_witness :
  singleLine "Error: boom" = true
  /\ ConsoleOutput.formatStack (fun _ text => text) (Some "Error: boom") = EmptyString
  /\ ConsoleOutput.formatStack (fun _ text => text) None = EmptyString.
Proof.
  split; [reflexivity|].
  apply (formatStack_without_second_line (fun _ text => text) "Error: boom").
  reflexivity.
Defined.

(** X23: [error] writes to the error stream only.  For a string it logs one
    line; for an [Error] two, the message line and then the formatted stack
    (an empty line when there is no stack); for anything else it throws,
    naming the [typeof] of what it received, and logs nothing. *)
Theorem error_logs_to_stderr
    (kleur : list ConsoleOutput.Style -> string -> string)
    (e : ConsoleOutput.JsValue) (console : ConsoleOutput.Console) :
  ConsoleOutput.logged (snd (ConsoleOutput.error kleur e console))
  = ConsoleOutput.logged console
  /\ match e with
     | ConsoleOutput.JsString _ =>
         fst (ConsoleOutput.error kleur e console) = inr tt
         /\ exists line,
              ConsoleOutput.loggedError (snd (ConsoleOutput.error kleur e console))
              = (ConsoleOutput.loggedError console ++ [line])%list
     | ConsoleOutput.JsError _ stack =>
         fst (ConsoleOutput.error kleur e console) = inr tt
         /\ exists line,
              ConsoleOutput.loggedError (snd (ConsoleOutput.error kleur e console))
              = (ConsoleOutput.loggedError console
                   ++ [line; ConsoleOutput.formatStack kleur stack])%list
     | _ =>
         ConsoleOutput.error kleur e console
         = (inl ("Unsupported input when logging an error. Received: "
                   ++ ConsoleOutput.typeof e),
            console)
     end.
Proof.
  destruct e; cbn; try (split; reflexivity).
  - split; [reflexivity|]. split; [reflexivity|]. eauto.
  - split; [reflexivity|]. split; [reflexivity|].
    eexists. rewrite <- app_assoc. reflexivity.
Qed.

(** X24: [success], [hint] and [fail] accept a string label with a message
    that is a string or nullish, and then log exactly one line: [success]
    and [hint] to the output stream, [fail] to the error stream, none of
    them to the other stream.  For any other pair of arguments each of them
    throws and logs nothing. *)
Theorem labelled_logging
    (kleur : list ConsoleOutput.Style -> string -> string)
    (label message : ConsoleOutput.JsValue) (console : ConsoleOutput.Console) :
  if supported label message
  then
    (exists line,
       ConsoleOutput.success kleur label message console
       = (inr tt, ConsoleOutput.log line console))
    /\ (exists line,
          ConsoleOutput.hint kleur label message console
          = (inr tt, ConsoleOutput.log line console))
    /\ (exists line,
          ConsoleOutput.fail kleur label message console
          = (inr tt, ConsoleOutput.logError line console))
  else
    (exists text, ConsoleOutput.success kleur label message console = (inl text, console))
    /\ (exists text, ConsoleOutput.hint kleur label message console = (inl text, console))
    /\ (exists text, ConsoleOutput.fail kleur label message console = (inl text, console)).
Proof.
  destruct label, message; cbn; repeat split; eauto.
Qed.

(** X25: [debug], [info] and [warn] accept a string and log exactly one line
    to the output stream, nothing to the error stream; the line of [debug]
    and of [info] ends with two spaces and the message as given.  For
    anything but a string each of them throws, naming the [typeof] of what
    it received, and logs nothing. *)
Theorem plain_logging
    (kleur : list ConsoleOutput.Style -> string -> string)
    (message : ConsoleOutput.JsValue) (console : ConsoleOutput.Console) :
  match message with
  | ConsoleOutput.JsString m =>
      (exists badge,
         ConsoleOutput.debug kleur message console
         = (inr tt, ConsoleOutput.log (badge ++ "  " ++ m) console))
      /\ (exists badge,
            ConsoleOutput.info kleur message console
            = (inr tt, ConsoleOutput.log (badge ++ "  " ++ m) console))
      /\ (exists line,
            ConsoleOutput.warn kleur message console
            = (inr tt, ConsoleOutput.log line console))
  | _ =>
      ConsoleOutput.debug kleur message console
      = (inl ("Unsupported input when logging a debug message. Received: "
                ++ ConsoleOutput.typeof message),
         console)
      /\ ConsoleOutput.info kleur message console
         = (inl ("Unsupported input when logging an info message. Received: "
                   ++ ConsoleOutput.typeof message),
            console)
      /\ ConsoleOutput.warn kleur message console
         = (inl ("Unsupported input when logging a warning message. Received: "
                   ++ ConsoleOutput.typeof message),
            console)
  end.
Proof.
  destruct message; cbn; repeat split; eauto.
Qed.

(** * Lookups by name and by integer *)

(** X26: for a name, [hasArgument] and [argument] agree, and so do
    [hasOption] and [option]: the first answers true exactly when the second
    returns an object, and the object returned is registered and carries
    that name. *)
Theorem lookup_by_name_agrees (d : InputDefinition.t) (name : string) :
  InputDefinition.hasArgument d (Name name)
  = truthy (InputDefinition.argument d (Name name))
  /\ InputDefinition.hasOption d (Name name)
     = truthy (InputDefinition.option_ d (Name name))
  /\ (forall a, InputDefinition.argument d (Name name) = Some a ->
                a ∈ InputDefinition.arguments d /\ InputArgument.name a = name)
  /\ (forall o, InputDefinition.option_ d (Name name) = Some o ->
                o ∈ InputDefinition.options d /\ InputOption.name o = name).
Proof.
  split; [apply existsb_find|]. split; [apply existsb_find|]. split.
  - intros a Hfind. apply find_some in Hfind as [Hin Heq].
    split; [now apply list_elem_of_In|now apply String.eqb_eq].
  - intros o Hfind. apply find_some in Hfind as [Hin Heq].
    split; [now apply list_elem_of_In|now apply String.eqb_eq].
Qed.

(** X27: for an integer, [argument] and [option] return nothing, whatever
    is registered: they compare the integer with the names.  So at every
    position at which [hasArgument] or [hasOption] answers true, the lookup
    that should fetch the object still finds none. *)
Theorem lookup_by_integer_finds_nothing (d : InputDefinition.t) (i : Z) :
  InputDefinition.argument d (Index i) = None
  /\ InputDefinition.option_ d (Index i) = None
  /\ (0 <= i < Z.of_nat (length (InputDefinition.arguments d)) ->
      InputDefinition.hasArgument d (Index i) = true
      /\ InputDefinition.argument d (Index i) = None).
Proof.
  assert (Hnone : forall (A : Type) (name : A -> string) (l : list A),
             List.find (fun x => strictEquals (name x) (Index i)) l = None).
  { intros A name l. induction l as [|x l IH]; simpl; auto. }
  split; [apply Hnone|]. split; [apply Hnone|].
  intros Hrange. split; [|apply Hnone].
  rewrite <- (Z2Nat.id i) by lia. apply hasArgument_Index_lt. lia.
Qed.

(** X28: [prettyPrint] frames the error with empty lines: for an [Error]
    (or a string) it returns, the output stream gains exactly two empty
    lines, and the error stream gains what [error] logs between them.  For a
    value [error] does not support it throws after the first empty line was
    logged, and the error stream is untouched. *)
Theorem prettyPrint_frames_the_error
    (kleur : list ConsoleOutput.Style -> string -> string)
    (e : ConsoleOutput.JsValue) (console : ConsoleOutput.Console) :
  ConsoleOutput.loggedError (snd (prettyPrint kleur e console))
  = ConsoleOutput.loggedError (snd (ConsoleOutput.error kleur e console))
  /\ match e with
     | ConsoleOutput.JsString _ | ConsoleOutput.JsError _ _ =>
         fst (prettyPrint kleur e console) = inr tt
         /\ ConsoleOutput.logged (snd (prettyPrint kleur e console))
            = (ConsoleOutput.logged console ++ [EmptyString; EmptyString])%list
     | _ =>
         fst (prettyPrint kleur e console)
         = inl ("Unsupported input when logging an error. Received: "
                  ++ ConsoleOutput.typeof e)
         /\ ConsoleOutput.logged (snd (prettyPrint kleur e console))
            = (ConsoleOutput.logged console ++ [EmptyString])%list
     end.
Proof.
  destruct e; cbn; repeat split; try reflexivity; now rewrite <- app_assoc.
Qed.
